(** * DailyTaskReminder: the JSON task store ([storage.py]) and its list tool

    A shallow embedding of [TaskStorage] and of [ListTasksTool.handle].

    - A task is the dict that [add_task] builds: eight keys, typed as the
      signature of [add_task] annotates them.
    - The backing file is either text that [json.load] decodes to a list of
      tasks, or text on which it raises [JSONDecodeError].
    - Every method of the store is a small program over two effects, reading
      the file and writing it, the two places where [_load] and [_save] hold
      the [fcntl] lock.  The same programs are run one after the other
      ([run]) or interleaved ([interleave]).
    - [uuid.uuid4()] and [datetime.now(timezone.utc).isoformat()] are inputs
      of the methods that call them.
    - Python strings are [string]s; characters range over the code points
      below 256, compared by code point as Python compares them.

    Around the store: the tools that call it ([AddTaskTool],
    [CompleteTaskTool], [DeleteTaskTool], [CheckRemindersTool]), the
    [Notifier] with its cached probe, and from [interactive_cli] the two
    parsing helpers, the [add] command and the reminder loop.  [RawLoad]
    looks at [_load] one level down, on the bytes of the file. *)

From Stdlib Require Import String Ascii List Bool Arith Lia NArith.
Import ListNotations.
Open Scope string_scope.
Open Scope list_scope.

(** ** Python primitives used by the store *)

Module Py.

(** [s.startswith(p)] *)
Definition startswith (s p : string) : bool := String.prefix p s.

Definition hex_digit (n : N) : ascii :=
  match n with
  | 0%N => "0" | 1%N => "1" | 2%N => "2" | 3%N => "3"
  | 4%N => "4" | 5%N => "5" | 6%N => "6" | 7%N => "7"
  | 8%N => "8" | 9%N => "9" | 10%N => "a" | 11%N => "b"
  | 12%N => "c" | 13%N => "d" | 14%N => "e" | _ => "f"
  end%char.

(** The value of a hex digit, [int(c, 16)]. *)
Definition hex_value (c : ascii) : N :=
  match c with
  | "0" => 0 | "1" => 1 | "2" => 2 | "3" => 3 | "4" => 4 | "5" => 5
  | "6" => 6 | "7" => 7 | "8" => 8 | "9" => 9 | "a" => 10 | "b" => 11
  | "c" => 12 | "d" => 13 | "e" => 14 | _ => 15
  end%char%N.

(** ['%0kx' % n], accumulated from the least significant digit. *)
Fixpoint hex_digits (k : nat) (n : N) (acc : string) : string :=
  match k with
  | O => acc
  | S k' => hex_digits k' (n / 16)%N (String (hex_digit (n mod 16)%N) acc)
  end.

(** [UUID.hex]: the 128-bit integer of the uuid as 32 lowercase hex digits. *)
Definition uuid_hex (u : N) : string := hex_digits 32 u "".

(** [x[:n]] on a string *)
Definition take (n : nat) (s : string) : string := substring 0 n s.

(** [[i for i, x in enumerate(xs, start) if p(x)]]: the positions of the
    elements that satisfy [p].  A position in a loaded list stands for the
    reference to the dict stored there. *)
Fixpoint positions_from {A : Type} (p : A -> bool) (start : nat) (xs : list A)
  : list nat :=
  match xs with
  | [] => []
  | x :: r =>
      if p x then start :: positions_from p (S start) r
      else positions_from p (S start) r
  end.

Definition positions {A : Type} (p : A -> bool) (xs : list A) : list nat :=
  positions_from p 0 xs.

(** In-place mutation of the object at position [i]. *)
Fixpoint mutate {A : Type} (f : A -> A) (i : nat) (xs : list A) : list A :=
  match xs, i with
  | [], _ => []
  | x :: r, O => f x :: r
  | x :: r, S j => x :: mutate f j r
  end.

(** The objects that the references [refs] point to in [xs]. *)
Definition deref_all {A : Type} (xs : list A) (refs : list nat) : list A :=
  flat_map (fun i => match nth_error xs i with
                     | Some x => [x]
                     | None => []
                     end) refs.

(** [xs.remove(x)]: drops the first element equal to [x]. *)
Fixpoint remove_first {A : Type} (eqb : A -> A -> bool) (x : A) (xs : list A)
  : list A :=
  match xs with
  | [] => []
  | y :: r => if eqb y x then r else y :: remove_first eqb x r
  end.

End Py.

(** ** The task record *)

Record Task : Type := mkTask {
  id : string;
  title : string;
  description : string;
  due_at : option string;
  remind_at : option string;
  status : string;
  notified : bool;
  created_at : string
}.

(** The keyword arguments of [update_task]: for each key of a task, the
    value to assign when the key is passed.  (Keys that no task has are
    left out: no method of the store reads them.) *)
Record Fields : Type := mkFields {
  set_id : option string;
  set_title : option string;
  set_description : option string;
  set_due_at : option (option string);
  set_remind_at : option (option string);
  set_status : option string;
  set_notified : option bool;
  set_created_at : option string
}.

Definition no_fields : Fields :=
  mkFields None None None None None None None None.

Definition or_keep {A : Type} (new : option A) (old : A) : A :=
  match new with
  | Some v => v
  | None => old
  end.

(** [task.update(fields)] *)
Definition dict_update (fields : Fields) (t : Task) : Task :=
  mkTask (or_keep (set_id fields) (id t))
         (or_keep (set_title fields) (title t))
         (or_keep (set_description fields) (description t))
         (or_keep (set_due_at fields) (due_at t))
         (or_keep (set_remind_at fields) (remind_at t))
         (or_keep (set_status fields) (status t))
         (or_keep (set_notified fields) (notified t))
         (or_keep (set_created_at fields) (created_at t)).

(** [t["notified"] = True] *)
Definition mark_notified (t : Task) : Task :=
  mkTask (id t) (title t) (description t) (due_at t) (remind_at t)
         (status t) true (created_at t).

Definition opt_eqb (a b : option string) : bool :=
  match a, b with
  | Some x, Some y => x =? y
  | None, None => true
  | _, _ => false
  end.

(** [t1 == t2] on two task dicts: the same value under every key. *)
Definition dict_eqb (a b : Task) : bool :=
  (id a =? id b) && (title a =? title b)
  && (description a =? description b)
  && opt_eqb (due_at a) (due_at b)
  && opt_eqb (remind_at a) (remind_at b)
  && (status a =? status b)
  && Bool.eqb (notified a) (notified b)
  && (created_at a =? created_at b).

(** ** The backing file and the programs over it *)

Inductive content : Type :=
| Json (tasks : list Task)
| Malformed (text : string).

Inductive prog (A : Type) : Type :=
| Ret (a : A)
| ReadFile (k : content -> prog A)
| WriteFile (tasks : list Task) (k : prog A).

Arguments Ret {A} a.
Arguments ReadFile {A} k.
Arguments WriteFile {A} tasks k.

Fixpoint bind {A B : Type} (p : prog A) (f : A -> prog B) : prog B :=
  match p with
  | Ret a => f a
  | ReadFile k => ReadFile (fun c => bind (k c) f)
  | WriteFile ts k => WriteFile ts (bind k f)
  end.

Notation "x <- p ;; q" := (bind p (fun x => q))
  (at level 61, p at next level, right associativity).
Notation "p ;; q" := (bind p (fun _ => q))
  (at level 61, right associativity).

(** One caller running alone: the value returned and the file left behind. *)
Fixpoint run {A : Type} (p : prog A) (c : content) : A * content :=
  match p with
  | Ret a => (a, c)
  | ReadFile k => run (k c) c
  | WriteFile ts k => run k (Json ts)
  end.

(** The collections written by [p], in order. *)
Fixpoint writes {A : Type} (p : prog A) (c : content) : list (list Task) :=
  match p with
  | Ret _ => []
  | ReadFile k => writes (k c) c
  | WriteFile ts k => ts :: writes k (Json ts)
  end.

(** Two callers on one file.  A schedule names, step by step, the caller
    whose next locked section runs; a caller that has returned ignores its
    turns. *)
Inductive side : Type := First | Second.

Definition step {A : Type} (p : prog A) (c : content) : prog A * content :=
  match p with
  | Ret a => (Ret a, c)
  | ReadFile k => (k c, c)
  | WriteFile ts k => (k, Json ts)
  end.

Fixpoint interleave {A B : Type} (schedule : list side)
  (p : prog A) (q : prog B) (c : content) : prog A * prog B * content :=
  match schedule with
  | [] => (p, q, c)
  | First :: rest =>
      let (p', c') := step p c in interleave rest p' q c'
  | Second :: rest =>
      let (q', c') := step q c in interleave rest p q' c'
  end.

(** ** TaskStorage *)

Module TaskStorage.

(** [json.load(f)]: the data, or [None] for [JSONDecodeError]. *)
Definition json_load (c : content) : option (list Task) :=
  match c with
  | Json data => Some data
  | Malformed _ => None
  end.

(** The body of [_load] under the shared lock:
    [try: data = json.load(f)  except json.JSONDecodeError: data = []]. *)
Definition decode (c : content) : list Task :=
  match json_load c with
  | Some data => data
  | None => []
  end.

Definition _load : prog (list Task) := ReadFile (fun c => Ret (decode c)).

(** [_save]: [json.dump] under the exclusive lock.  ([open(path, "w")]
    empties the file before the lock is taken; taking the whole of [_save]
    as one step leaves out schedules, it adds none.) *)
Definition _save (tasks : list Task) : prog unit := WriteFile tasks (Ret tt).

(** [_ensure_storage] on a path that does not exist yet: [_save([])]. *)
Definition fresh : content := Json [].

(** [uuid.uuid4().hex[:8]] *)
Definition new_id (uuid : N) : string := Py.take 8 (Py.uuid_hex uuid).

Definition add_task (title description : string)
  (due_at remind_at : option string) (uuid : N) (now : string) : prog Task :=
  let task :=
    mkTask (new_id uuid) title description due_at remind_at
           "pending" false now in
  tasks <- _load ;;
  _save (tasks ++ [task]) ;;
  Ret task.

Definition get_task (task_id : string) : prog (option Task) :=
  tasks <- _load ;;
  match find (fun t => id t =? task_id) tasks with
  | Some t => Ret (Some t)
  | None =>
      if (4 <=? String.length task_id)%nat then
        match filter (fun t => Py.startswith (id t) task_id) tasks with
        | [t] => Ret (Some t)
        | _ => Ret None
        end
      else Ret None
  end.

Definition is_overdue (now : string) (t : Task) : bool :=
  (status t =? "pending")
  && match due_at t with
     | Some d => negb (d =? "") && (d <? now)
     | None => false
     end.

Definition list_tasks (status_filter : string) (now : string)
  : prog (list Task) :=
  tasks <- _load ;;
  if status_filter =? "all" then Ret tasks
  else if status_filter =? "pending" then
    Ret (filter (fun t => status t =? "pending") tasks)
  else if status_filter =? "completed" then
    Ret (filter (fun t => status t =? "completed") tasks)
  else if status_filter =? "overdue" then
    Ret (filter (is_overdue now) tasks)
  else Ret tasks.

(** [_find]: the reference to the matching dict of [tasks], as its
    position. *)
Definition _find (tasks : list Task) (task_id : string) : option nat :=
  match Py.positions (fun t => id t =? task_id) tasks with
  | i :: _ => Some i
  | [] =>
      if (4 <=? String.length task_id)%nat then
        match Py.positions (fun t => Py.startswith (id t) task_id) tasks with
        | [i] => Some i
        | _ => None
        end
      else None
  end.

(** [task.update(fields)] changes the dict in place, in the list that is
    then saved; the dict is returned as changed. *)
Definition update_task (task_id : string) (fields : Fields)
  : prog (option Task) :=
  tasks <- _load ;;
  match _find tasks task_id with
  | None => Ret None
  | Some i =>
      let tasks' := Py.mutate (dict_update fields) i tasks in
      _save tasks' ;;
      Ret (nth_error tasks' i)
  end.

Definition completed_fields : Fields :=
  mkFields None None None None None (Some "completed") None None.

Definition complete_task (task_id : string) : prog (option Task) :=
  update_task task_id completed_fields.

(** [tasks.remove(task)] compares by value.  The reference that [_find]
    returns always points into [tasks] (lemma [_find_valid]), so the inner
    [None] branch is never taken. *)
Definition delete_task (task_id : string) : prog (option Task) :=
  tasks <- _load ;;
  match _find tasks task_id with
  | None => Ret None
  | Some i =>
      match nth_error tasks i with
      | None => Ret None
      | Some task =>
          _save (Py.remove_first dict_eqb task tasks) ;;
          Ret (Some task)
      end
  end.

Definition is_due (now : string) (t : Task) : bool :=
  (status t =? "pending")
  && match remind_at t with
     | Some r => negb (r =? "") && (r <=? now)
     | None => false
     end
  && negb (notified t).

(** The dicts selected into [due] are the dicts of [tasks]: marking them
    marks the list that is saved, and the list returned holds them as
    marked. *)
Definition get_due_reminders (now : string) : prog (list Task) :=
  tasks <- _load ;;
  let due := Py.positions (is_due now) tasks in
  match due with
  | [] => Ret []
  | _ :: _ =>
      let tasks' :=
        fold_left (fun ts i => Py.mutate mark_notified i ts) due tasks in
      _save tasks' ;;
      Ret (Py.deref_all tasks' due)
  end.

End TaskStorage.

(** What one [get_due_reminders] call does to a stored task. *)
Definition mark_due (now : string) (t : Task) : Task :=
  if TaskStorage.is_due now t then mark_notified t else t.

(** The selection of the due-reminder query, in the words of its
    docstring: pending, a reminder time that is set and has passed, not yet
    notified.  A reminder time is set when it is neither [None] nor empty. *)
Definition due_in_words (now : string) (t : Task) : Prop :=
  status t = "pending"
  /\ (exists r, remind_at t = Some r /\ r <> "" /\ (r <=? now) = true)
  /\ notified t = false.

(** The selection of the overdue filter in words: pending, with a due time
    that is set (neither [None] nor empty) and strictly before [now] as a
    string. *)
Definition overdue_in_words (now : string) (t : Task) : Prop :=
  status t = "pending"
  /\ exists d, due_at t = Some d /\ d <> "" /\ (d <? now) = true.

(** ** The operations of the store as one type of calls *)

Inductive call : Type :=
| call_add (title description : string) (due_at remind_at : option string)
           (uuid : N) (now : string)
| call_get (task_id : string)
| call_list (status_filter now : string)
| call_update (task_id : string) (fields : Fields)
| call_complete (task_id : string)
| call_delete (task_id : string)
| call_due_reminders (now : string).

Inductive answer : Type :=
| a_task (t : option Task)
| a_tasks (ts : list Task).

Definition perform (c : call) : prog answer :=
  match c with
  | call_add ti de du re uuid now =>
      t <- TaskStorage.add_task ti de du re uuid now ;; Ret (a_task (Some t))
  | call_get i => t <- TaskStorage.get_task i ;; Ret (a_task t)
  | call_list f now => ts <- TaskStorage.list_tasks f now ;; Ret (a_tasks ts)
  | call_update i fields =>
      t <- TaskStorage.update_task i fields ;; Ret (a_task t)
  | call_complete i => t <- TaskStorage.complete_task i ;; Ret (a_task t)
  | call_delete i => t <- TaskStorage.delete_task i ;; Ret (a_task t)
  | call_due_reminders now =>
      ts <- TaskStorage.get_due_reminders now ;; Ret (a_tasks ts)
  end.

(** The file after a call, and after a sequence of calls. *)
Definition after (c : call) (file : content) : content :=
  snd (run (perform c) file).

Definition after_all (cs : list call) (file : content) : content :=
  fold_left (fun f c => after c f) cs file.

(** The arguments of one [add_task] call. *)
Record new_task : Type := mkNew {
  n_title : string;
  n_description : string;
  n_due_at : option string;
  n_remind_at : option string;
  n_uuid : N;
  n_now : string
}.

Definition add_call (n : new_task) : call :=
  call_add (n_title n) (n_description n) (n_due_at n) (n_remind_at n)
           (n_uuid n) (n_now n).

(** The dict that [add_task] builds from its arguments. *)
Definition task_of (n : new_task) : Task :=
  mkTask (TaskStorage.new_id (n_uuid n)) (n_title n) (n_description n)
         (n_due_at n) (n_remind_at n) "pending" false (n_now n).

(** The lists returned by successive [get_due_reminders] calls, one per
    clock reading, as the reminder loop issues them. *)
Fixpoint poll (nows : list string) (file : content) : list (list Task) :=
  match nows with
  | [] => []
  | now :: later =>
      fst (run (TaskStorage.get_due_reminders now) file)
      :: poll later (snd (run (TaskStorage.get_due_reminders now) file))
  end.

(** ** ListTasksTool *)

Module ListTasksTool.

Definition VALID_FILTERS : list string :=
  ["all"; "pending"; "completed"; "overdue"].

(** [', '.join(sorted(VALID_FILTERS))] *)
Definition sorted_filters : string := "all, completed, overdue, pending".

(** Modelled from the spec: [MCPResponse] of [core.models], the uniform
    success/failure response contract; [failure] carries the message and
    [success] the result dict of the tool. *)
Inductive MCPResponse : Type :=
| failure (error : string)
| success (filter : string) (count : nat) (tasks : list Task).

(** [handle]: [payload_filter] is [request.payload.get("filter")]. *)
Definition handle (payload_filter : option string) (now : string)
  : prog MCPResponse :=
  let status_filter :=
    match payload_filter with
    | Some f => f
    | None => "pending"
    end in
  if negb (existsb (String.eqb status_filter) VALID_FILTERS) then
    Ret (failure ("Invalid filter '" ++ status_filter
                  ++ "'. Must be one of: " ++ sorted_filters ++ "."))
  else
    tasks <- TaskStorage.list_tasks status_filter now ;;
    Ret (success status_filter (length tasks) tasks).

End ListTasksTool.

(** ** The two invariants as the claims state them *)

(** A call respects the ids of the store when [add_task] draws an id that
    is not stored yet and [update_task] is not asked to assign [id]. *)
Definition keeps_ids (c : call) (file : content) : Prop :=
  match c with
  | call_add _ _ _ _ uuid _ =>
      ~ In (TaskStorage.new_id uuid) (map id (TaskStorage.decode file))
  | call_update _ fields => set_id fields = None
  | _ => True
  end.

(** [update_task(..., notified=False)] *)
Definition resets_notified (c : call) : Prop :=
  match c with
  | call_update _ fields => set_notified fields = Some false
  | _ => False
  end.

(** The claim that no call resets the notified flag of a task that stays
    in the store, tasks being identified by their ids. *)
Definition notified_never_reset : Prop :=
  forall (c : call) (file : content) (t t' : Task),
    NoDup (map id (TaskStorage.decode file)) ->
    keeps_ids c file ->
    In t (TaskStorage.decode file) -> notified t = true ->
    In t' (TaskStorage.decode (after c file)) -> id t' = id t ->
    notified t' = true.

(** The claim that ids stay pairwise distinct under any sequence of
    [add_task] calls. *)
Definition ids_always_distinct : Prop :=
  forall (file : content) (ns : list new_task),
    NoDup (map id (TaskStorage.decode file)) ->
    NoDup (map id (TaskStorage.decode (after_all (map add_call ns) file))).

(** ** Sample data, after the tests *)

Definition a_uuid : N := 0x123456780000400080000000000000ff.

(** Another version-4 uuid, with the same leading 32 bits as [a_uuid]. *)
Definition b_uuid : N := 0x12345678ffff4fffbfff000000000000.

Definition c_uuid : N := 0x9abcdef00000400080000000000000ff.

(** The task of [test_due_reminders] as [add_task] stores it. *)
Definition reminder : Task :=
  mkTask "12345678" "Past reminder" "" None (Some "2020-01-01T00:00:00")
         "pending" false "2026-02-14T08:00:00+00:00".

Definition past_reminder : Task := mark_notified reminder.

Definition done_reminder : Task :=
  mkTask "12345678" "Past reminder" "" None (Some "2020-01-01T00:00:00")
         "completed" false "2026-02-14T08:00:00+00:00".

Definition task_a : Task :=
  mkTask "abc12345" "Task A" "" None None "pending" false
         "2026-02-14T08:00:00+00:00".

Definition task_b : Task :=
  mkTask "abc99999" "Task B" "" (Some "2020-01-01T10:00:00") None "pending"
         false "2026-02-14T08:00:01+00:00".

(** [task_b] once completed: same due time, status completed. *)
Definition task_b_done : Task :=
  mkTask "abc99999" "Task B" "" (Some "2020-01-01T10:00:00") None "completed"
         false "2026-02-14T08:00:01+00:00".

Definition new_a : new_task :=
  mkNew "Task A" "" None None a_uuid "2026-02-14T08:00:00+00:00".

Definition new_b : new_task :=
  mkNew "Task B" "" None None b_uuid "2026-02-14T08:00:01+00:00".

Definition new_c : new_task :=
  mkNew "Task C" "" None None c_uuid "2026-02-14T08:00:02+00:00".

(** The keyword arguments of [update_task(task_id, notified=False)]. *)
Definition reset_fields : Fields :=
  mkFields None None None None None None (Some false) None.


(** ** Sequences of calls *)

(** Every call of a sequence respects the ids of the store it meets. *)
Fixpoint keep_ids_all (cs : list call) (file : content) : Prop :=
  match cs with
  | [] => True
  | c :: later => keeps_ids c file /\ keep_ids_all later (after c file)
  end.

(** The calls that the tools make: every call but a bare [update_task]. *)
Definition tool_call (c : call) : bool :=
  match c with
  | call_update _ _ => false
  | _ => true
  end.

(** Every task is pending or completed. *)
Definition two_statuses (tasks : list Task) : Prop :=
  Forall (fun t => status t = "pending" \/ status t = "completed") tasks.


(** ** More Python string primitives *)

Module Str.

(** [c.isspace()] for the code points below 256. *)
Definition is_space (c : ascii) : bool :=
  let n := nat_of_ascii c in
  ((9 <=? n) && (n <=? 13) || (28 <=? n) && (n <=? 32)
   || (n =? 133) || (n =? 160))%nat.

Fixpoint lstrip (s : string) : string :=
  match s with
  | EmptyString => EmptyString
  | String c r => if is_space c then lstrip r else s
  end.

Fixpoint rstrip (s : string) : string :=
  match s with
  | EmptyString => EmptyString
  | String c r =>
      match rstrip r with
      | EmptyString => if is_space c then EmptyString else String c EmptyString
      | r' => String c r'
      end
  end.

(** [s.strip()] *)
Definition strip (s : string) : string := lstrip (rstrip s).

(** [c in s] for a one-character string [c] *)
Fixpoint contains (c : ascii) (s : string) : bool :=
  match s with
  | EmptyString => false
  | String a r => Ascii.eqb a c || contains c r
  end.

(** [s.split(c, 1)] as the pair [(parts[0], parts[1])], for an [s] that
    contains [c] (the only use made of it). *)
Fixpoint split_once (c : ascii) (s : string) : string * string :=
  match s with
  | EmptyString => (EmptyString, EmptyString)
  | String a r =>
      if Ascii.eqb a c then (EmptyString, r)
      else let (x, y) := split_once c r in (String a x, y)
  end.

(** [sep.join(parts)] *)
Fixpoint join (sep : string) (parts : list string) : string :=
  match parts with
  | [] => ""
  | [p] => p
  | p :: rest => (p ++ sep ++ join sep rest)%string
  end.

Definition newline : string := String (ascii_of_nat 10) "".

(** The escape sequence [\033[<code>m]. *)
Definition ansi (code : string) : string :=
  String (ascii_of_nat 27) ("[" ++ code ++ "m")%string.

(** A dict from strings to strings, in insertion order. *)
Definition dict : Type := list (string * string).

(** [d.get(k)] *)
Fixpoint dict_get (k : string) (d : dict) : option string :=
  match d with
  | [] => None
  | (k', v) :: r => if k' =? k then Some v else dict_get k r
  end.

(** [d[k] = v] *)
Fixpoint dict_set (k v : string) (d : dict) : dict :=
  match d with
  | [] => [(k, v)]
  | (k', v') :: r =>
      if k' =? k then (k, v) :: r else (k', v') :: dict_set k v r
  end.

(** No whitespace and no ["T"] in [s]: a date or a time as the command
    line takes them, ["YYYY-MM-DD"] or ["HH:MM"]. *)
Fixpoint plain (s : string) : bool :=
  match s with
  | EmptyString => true
  | String c r => negb (is_space c) && negb (Ascii.eqb c "T") && plain r
  end.

End Str.

(** ** interactive_cli: the two parsing helpers *)

Module InteractiveCLI.

(** The [while] loop of [_parse_args_with_flags], from index [i] on:
    [args] is [args[i:]]. *)
Fixpoint parse_loop (flags : list string) (args : list string)
  (title_parts : list string) (opts : Str.dict) : list string * Str.dict :=
  match args with
  | [] => (title_parts, opts)
  | token :: rest =>
      if existsb (String.eqb token) flags then
        match rest with
        | value :: rest' =>
            parse_loop flags rest' title_parts (Str.dict_set token value opts)
        | [] => (title_parts, opts)
        end
      else parse_loop flags rest (title_parts ++ [token]) opts
  end.

Definition _parse_args_with_flags (args : list string) (flags : list string)
  : string * Str.dict :=
  let (title_parts, opts) := parse_loop flags args [] [] in
  (Str.join " " title_parts, opts).

Definition _normalize_datetime (value : string) : string :=
  let value := Str.strip value in
  if Str.contains "T" value then value
  else if Str.contains " " value then
    let (date, time_part) := Str.split_once " " value in
    let time_part :=
      if (String.length time_part =? 5)%nat then (time_part ++ ":00")%string
      else time_part in
    (date ++ "T" ++ time_part)%string
  else (value ++ "T00:00:00")%string.

End InteractiveCLI.


(** ** The other tools *)

(** Modelled from the spec: [MCPResponse] of [core.models], the uniform
    success/failure response contract, for a tool whose result is an [R];
    [failure] carries the message. *)
Inductive response (R : Type) : Type :=
| failure (error : string)
| success (result : R).

Arguments failure {R} error.
Arguments success {R} result.

Module AddTaskTool.

(** The keys of the payload that the tool reads, each a string when it is
    there. *)
Record payload : Type := mkPayload {
  p_title : option string;
  p_description : option string;
  p_due_at : option string;
  p_remind_at : option string
}.

Definition no_title : string := "Payload must include a non-empty 'title'.".

Definition handle (request : payload) (uuid : N) (now : string)
  : prog (response Task) :=
  match p_title request with
  | None => Ret (failure no_title)
  | Some title =>
      if (title =? "") || (Str.strip title =? "") then
        Ret (failure no_title)
      else
        task <- TaskStorage.add_task
                  (Str.strip title)
                  (Str.strip (match p_description request with
                              | Some d => d
                              | None => ""
                              end))
                  (p_due_at request) (p_remind_at request) uuid now ;;
        Ret (success task)
  end.

End AddTaskTool.

Definition no_task_id : string := "Payload must include 'task_id'.".

Definition not_found (task_id : string) : string :=
  ("Task '" ++ task_id ++ "' not found.")%string.

Module CompleteTaskTool.

(** [payload_task_id] is [request.payload.get("task_id")]. *)
Definition handle (payload_task_id : option string)
  : prog (response Task) :=
  match payload_task_id with
  | None => Ret (failure no_task_id)
  | Some task_id =>
      if task_id =? "" then Ret (failure no_task_id)
      else
        task <- TaskStorage.complete_task task_id ;;
        match task with
        | None => Ret (failure (not_found task_id))
        | Some t => Ret (success t)
        end
  end.

End CompleteTaskTool.

Module DeleteTaskTool.

(** The result is the task under the key ["deleted"]. *)
Definition handle (payload_task_id : option string)
  : prog (response Task) :=
  match payload_task_id with
  | None => Ret (failure no_task_id)
  | Some task_id =>
      if task_id =? "" then Ret (failure no_task_id)
      else
        task <- TaskStorage.delete_task task_id ;;
        match task with
        | None => Ret (failure (not_found task_id))
        | Some t => Ret (success t)
        end
  end.

End DeleteTaskTool.

Module CheckRemindersTool.

(** The result is the pair of ["count"] and ["tasks"]. *)
Definition handle (now : string) : prog (response (nat * list Task)) :=
  due_tasks <- TaskStorage.get_due_reminders now ;;
  Ret (success (length due_tasks, due_tasks)).

End CheckRemindersTool.

(** ** Notifier *)

Module Notifier.

Record state : Type := mkNotifier {
  app_name : string;
  _has_notify_send : option bool
}.

(** [Notifier(app_name)]; [config.APP_NAME] when no name is given. *)
Definition new (name : option string) : state :=
  mkNotifier (match name with
              | Some n => if n =? "" then "DailyTaskReminder" else n
              | None => "DailyTaskReminder"
              end) None.

(** What a notifier does to the outside: a write to stdout, a launch of
    [notify-send] with its two arguments. *)
Inductive event : Type :=
| stdout_write (msg : string)
| notify_send (name body : string).

Definition terminal_message (task : Task) : string :=
  let due_part :=
    match due_at task with
    | Some d => if d =? "" then "" else (" (due: " ++ d ++ ")")%string
    | None => ""
    end in
  (Str.newline ++ Str.ansi "1" ++ Str.ansi "33" ++ "[REMINDER]"
   ++ Str.ansi "0" ++ " " ++ Str.ansi "1" ++ title task ++ Str.ansi "0"
   ++ due_part ++ Str.newline)%string.

Definition terminal_notify (task : Task) : list event :=
  [stdout_write (terminal_message task)].

(** [which] is what [shutil.which("notify-send") is not None] would answer
    at the time of the call. *)
Definition _check_notify_send (which : bool) (self : state) : bool * state :=
  match _has_notify_send self with
  | None => (which, mkNotifier (app_name self) (Some which))
  | Some known => (known, self)
  end.

Definition desktop_body (task : Task) : string :=
  (title task
   ++ match due_at task with
      | Some d => if d =? "" then "" else Str.newline ++ "Due: " ++ d
      | None => ""
      end
   ++ (if description task =? "" then ""
       else Str.newline ++ description task))%string.

(** [subprocess.run] is started with [check=False] and what it raises is
    caught: the launch is all that shows. *)
Definition desktop_notify (which : bool) (task : Task) (self : state)
  : list event * state :=
  let (available, self') := _check_notify_send which self in
  if available then ([notify_send (app_name self') (desktop_body task)], self')
  else ([], self').

Definition notify (which : bool) (task : Task) (self : state)
  : list event * state :=
  let (events, self') := desktop_notify which task self in
  (terminal_notify task ++ events, self').

(** [notify] on one task after the other, each call with the answer the
    system would give at that time. *)
Fixpoint notify_each (calls : list (bool * Task)) (self : state)
  : list event * state :=
  match calls with
  | [] => ([], self)
  | (which, task) :: later =>
      let (events, self') := notify which task self in
      let (events', self'') := notify_each later self' in
      (events ++ events', self'')
  end.

Definition is_stdout (e : event) : bool :=
  match e with
  | stdout_write _ => true
  | notify_send _ _ => false
  end.

End Notifier.

(** ** interactive_cli: the reminder loop and the add command *)

Module Loop.

(** [subprocess.run] raises [ValueError] (embedded null byte) before it
    starts anything when one of its arguments holds a NUL character;
    [desktop_notify] catches [OSError] and [TimeoutExpired] only, so that
    error leaves [notify]. *)
Definition has_nul (s : string) : bool := Str.contains (ascii_of_nat 0) s.

(** Whether [notify] on [task] raises: [notify-send] is to be launched and
    its name or body argument holds a NUL. *)
Definition notify_raises (which : bool) (task : Task)
  (self : Notifier.state) : bool :=
  fst (Notifier._check_notify_send which self)
  && (has_nul (Notifier.app_name self)
      || has_nul (Notifier.desktop_body task)).

(** [for task in tasks: self.notifier.notify(task)]: a call that raises
    has written its terminal message and asked for [notify-send]; it ends
    the loop, the tasks after it are not notified. *)
Fixpoint notify_all (which : bool) (tasks : list Task)
  (self : Notifier.state) : list Notifier.event * Notifier.state :=
  match tasks with
  | [] => ([], self)
  | task :: later =>
      if notify_raises which task self then
        (Notifier.terminal_notify task,
         snd (Notifier._check_notify_send which self))
      else
        let (events, self') := Notifier.notify which task self in
        let (events', self'') := notify_all which later self' in
        (events ++ events', self'')
  end.

(** One pass of the body of [_reminder_loop], at clock reading [now]:
    the [checkreminders] tool, then [notify] for each task returned;
    [except Exception: pass] ends the pass at a [notify] that raises,
    after the file has been saved. *)
Definition tick (now : string) (which : bool) (file : content)
  (notifier : Notifier.state)
  : list Notifier.event * content * Notifier.state :=
  let (resp, file') := run (CheckRemindersTool.handle now) file in
  match resp with
  | success (count, tasks) =>
      if (0 <? count)%nat then
        let (events, notifier') := notify_all which tasks notifier in
        (events, file', notifier')
      else ([], file', notifier)
  | failure _ => ([], file', notifier)
  end.

(** [_reminder_loop] over the passes made before the stop event is set. *)
Fixpoint _reminder_loop (ticks : list (string * bool)) (file : content)
  (notifier : Notifier.state)
  : list Notifier.event * content * Notifier.state :=
  match ticks with
  | [] => ([], file, notifier)
  | (now, which) :: later =>
      let '(events, file', notifier') := tick now which file notifier in
      let '(events', file'', notifier'') :=
        _reminder_loop later file' notifier' in
      (events ++ events', file'', notifier'')
  end.

(** A task whose title holds a NUL, and one after it, both due. *)
Definition nul_reminder : Task :=
  mkTask "0badf00d" (String (ascii_of_nat 0) "") "" None
         (Some "2020-01-01T00:00:00") "pending" false
         "2026-02-14T08:00:00+00:00".

End Loop.


Module Commands.

Definition quote : string := String (ascii_of_nat 34) "".

Definition _RED : string := Str.ansi "31".
Definition _GREEN : string := Str.ansi "32".
Definition _RESET : string := Str.ansi "0".

Definition usage_add : string :=
  (_RED ++ "Usage: add <title> [--desc " ++ quote ++ "..." ++ quote
   ++ "] [--due " ++ quote ++ "YYYY-MM-DD HH:MM" ++ quote
   ++ "] [--remind " ++ quote ++ "YYYY-MM-DD HH:MM" ++ quote ++ "]"
   ++ _RESET)%string.

(** [opts[k]] when [opts.get(k)] is truthy. *)
Definition given (k : string) (opts : Str.dict) : option string :=
  match Str.dict_get k opts with
  | Some v => if v =? "" then None else Some v
  | None => None
  end.

(** The payload that [_handle_add] builds from the parsed line. *)
Definition add_payload (title : string) (opts : Str.dict)
  : AddTaskTool.payload :=
  AddTaskTool.mkPayload
    (Some title)
    (given "--desc" opts)
    (option_map InteractiveCLI._normalize_datetime (given "--due" opts))
    (option_map InteractiveCLI._normalize_datetime (given "--remind" opts)).

(** [_handle_add]: the tokens after the command word in, the line printed
    out; [words] is the title that the parser returns.  (The router hands
    the request to the tool of that name.) *)
Definition _handle_add (args : list string) (uuid : N) (now : string)
  : prog string :=
  let (words, opts) :=
    InteractiveCLI._parse_args_with_flags args
      ["--desc"; "--due"; "--remind"] in
  if words =? "" then Ret usage_add
  else
    resp <- AddTaskTool.handle (add_payload words opts) uuid now ;;
    match resp with
    | success task =>
        let due_str :=
          match due_at task with
          | Some d => if d =? "" then "" else ("  due: " ++ d)%string
          | None => ""
          end in
        Ret (_GREEN ++ "Task created:" ++ _RESET ++ " [" ++ id task ++ "] "
             ++ title task ++ due_str)%string
    | failure error => Ret (_RED ++ "Error: " ++ error ++ _RESET)%string
    end.

End Commands.


(** ** _load on the bytes of the file *)

(** [_load] again, one level down: the bytes of the file, the text layer
    of [open(path, "r", encoding="utf-8")], then [json.load] with its
    [try]/[except].  The rest of the file works on [content], which
    stands for the files whose bytes decode. *)

Module RawLoad.

Inductive exn : Type :=
| JSONDecodeError
| UnicodeDecodeError
| RecursionError.

Inductive outcome (A : Type) : Type :=
| returned (a : A)
| raised (e : exn).

Arguments returned {A} a.
Arguments raised {A} e.

(** A continuation byte, [10xxxxxx]. *)
Definition continuation (b : N) : bool := ((128 <=? b) && (b <=? 191))%N.

(** The strict UTF-8 decoder that [f.read()] runs: the code points, or
    [None] where it raises [UnicodeDecodeError] (a byte that cannot start
    a sequence, a sequence cut short or continued wrongly, an overlong
    form, a surrogate, a value above [0x10FFFF]). *)
Fixpoint utf8_decode (bytes : list Byte.byte) : option (list N) :=
  match bytes with
  | [] => Some []
  | c0 :: rest0 =>
      let b0 := Byte.to_N c0 in
      if (b0 <? 128)%N then
        option_map (cons b0) (utf8_decode rest0)
      else if ((194 <=? b0) && (b0 <=? 223))%N then
        match rest0 with
        | c1 :: rest1 =>
            let b1 := Byte.to_N c1 in
            if continuation b1 then
              option_map (cons ((b0 - 192) * 64 + (b1 - 128))%N)
                         (utf8_decode rest1)
            else None
        | _ => None
        end
      else if ((224 <=? b0) && (b0 <=? 239))%N then
        match rest0 with
        | c1 :: c2 :: rest2 =>
            let b1 := Byte.to_N c1 in
            let b2 := Byte.to_N c2 in
            if continuation b1 && continuation b2
               && negb ((b0 =? 224) && (b1 <? 160))%N
               && negb ((b0 =? 237) && (160 <=? b1))%N
            then
              option_map
                (cons ((b0 - 224) * 4096 + (b1 - 128) * 64 + (b2 - 128))%N)
                (utf8_decode rest2)
            else None
        | _ => None
        end
      else if ((240 <=? b0) && (b0 <=? 244))%N then
        match rest0 with
        | c1 :: c2 :: c3 :: rest3 =>
            let b1 := Byte.to_N c1 in
            let b2 := Byte.to_N c2 in
            let b3 := Byte.to_N c3 in
            if continuation b1 && continuation b2 && continuation b3
               && negb ((b0 =? 240) && (b1 <? 144))%N
               && negb ((b0 =? 244) && (144 <=? b1))%N
            then
              option_map
                (cons ((b0 - 240) * 262144 + (b1 - 128) * 4096
                       + (b2 - 128) * 64 + (b3 - 128))%N)
                (utf8_decode rest3)
            else None
        | _ => None
        end
      else None
  end.

Section Load.

(** [json.loads] on the decoded text: the data, or what it raises. *)
Variable json_loads : list N -> outcome (list Task).

(** [_load]: [except json.JSONDecodeError: data = []]; anything else
    that is raised leaves the method (the [finally] only unlocks). *)
Definition _load (bytes : list Byte.byte) : outcome (list Task) :=
  match utf8_decode bytes with
  | None => raised UnicodeDecodeError
  | Some text =>
      match json_loads text with
      | returned data => returned data
      | raised JSONDecodeError => returned []
      | raised e => raised e
      end
  end.

(** The [content] that the bytes of a file stand for, when they decode
    and the parser returns or raises [JSONDecodeError]. *)
Definition content_of (bytes : list Byte.byte) : option content :=
  match utf8_decode bytes with
  | None => None
  | Some text =>
      match json_loads text with
      | returned data => Some (Json data)
      | raised JSONDecodeError =>
          Some (Malformed (string_of_list_byte bytes))
      | raised _ => None
      end
  end.

End Load.

End RawLoad.

(** ** Lists of references *)

Section Positions.

Context {A : Type} (p : A -> bool).

Lemma mutate_app (f : A -> A) (pre : list A) (x : A) (r : list A) :
  Py.mutate f (length pre) (pre ++ x :: r) = pre ++ f x :: r.
Proof.
  induction pre as [|y pre IH]; simpl; [reflexivity|].
  now rewrite IH.
Qed.

Lemma mutate_length (f : A -> A) (i : nat) (xs : list A) :
  length (Py.mutate f i xs) = length xs.
Proof.
  revert i; induction xs as [|x r IH]; intros [|j]; simpl; auto.
Qed.

Lemma positions_from_filter (s : nat) (xs : list A) :
  length (Py.positions_from p s xs) = length (filter p xs).
Proof.
  revert s; induction xs as [|x r IH]; intros s; simpl; [reflexivity|].
  destruct (p x); simpl; now rewrite IH.
Qed.

Lemma positions_from_nil (s : nat) (xs : list A) :
  Py.positions_from p s xs = [] <-> filter p xs = [].
Proof.
  split; intros H; apply length_zero_iff_nil;
    [rewrite <- (positions_from_filter s)|rewrite positions_from_filter];
    now rewrite H.
Qed.

(** Mutating every selected position maps [f] over the selected elements
    and leaves the others alone. *)
Lemma mutate_positions (f : A -> A) (pre xs : list A) :
  fold_left (fun ts i => Py.mutate f i ts)
            (Py.positions_from p (length pre) xs) (pre ++ xs)
  = pre ++ map (fun x => if p x then f x else x) xs.
Proof.
  revert pre; induction xs as [|x r IH]; intros pre; simpl; [reflexivity|].
  destruct (p x); simpl.
  - rewrite mutate_app.
    change (pre ++ f x :: r) with (pre ++ [f x] ++ r).
    rewrite app_assoc.
    replace (S (length pre)) with (length (pre ++ [f x]))
      by (rewrite length_app; simpl; lia).
    rewrite IH, <- app_assoc. reflexivity.
  - change (pre ++ x :: r) with (pre ++ [x] ++ r).
    rewrite app_assoc.
    replace (S (length pre)) with (length (pre ++ [x]))
      by (rewrite length_app; simpl; lia).
    rewrite IH, <- app_assoc. reflexivity.
Qed.

(** Dereferencing the selected positions in a list obtained by mapping [h]
    gives [h] of the selected elements, in order. *)
Lemma deref_positions {B : Type} (h : A -> B) (pre : list B) (xs : list A) :
  Py.deref_all (pre ++ map h xs) (Py.positions_from p (length pre) xs)
  = map h (filter p xs).
Proof.
  unfold Py.deref_all.
  revert pre; induction xs as [|x r IH]; intros pre; simpl; [reflexivity|].
  destruct (p x); simpl.
  - rewrite nth_error_app2, Nat.sub_diag by lia. simpl. f_equal.
    specialize (IH (pre ++ [h x])).
    rewrite length_app, <- app_assoc in IH. simpl in IH.
    rewrite Nat.add_1_r in IH. exact IH.
  - specialize (IH (pre ++ [h x])).
    rewrite length_app, <- app_assoc in IH. simpl in IH.
    rewrite Nat.add_1_r in IH. exact IH.
Qed.

Lemma deref_positions_id (xs : list A) :
  Py.deref_all xs (Py.positions p xs) = filter p xs.
Proof.
  pose proof (deref_positions (fun x => x) [] xs) as H.
  simpl in H. rewrite !map_id in H. exact H.
Qed.

Lemma map_filter_marked (f : A -> A) (xs : list A) :
  map (fun x => if p x then f x else x) (filter p xs) = map f (filter p xs).
Proof.
  induction xs as [|x r IH]; simpl; [reflexivity|].
  destruct (p x) eqn:E; simpl; [rewrite E, IH|]; auto.
Qed.

Lemma mark_positions (f : A -> A) (xs : list A) :
  fold_left (fun ts i => Py.mutate f i ts) (Py.positions p xs) xs
  = map (fun x => if p x then f x else x) xs.
Proof. exact (mutate_positions f [] xs). Qed.

Lemma deref_marked (f : A -> A) (xs : list A) :
  Py.deref_all (map (fun x => if p x then f x else x) xs) (Py.positions p xs)
  = map f (filter p xs).
Proof.
  rewrite <- map_filter_marked.
  exact (deref_positions (fun x => if p x then f x else x) [] xs).
Qed.

Lemma positions_nil (xs : list A) :
  Py.positions p xs = [] <-> filter p xs = [].
Proof. apply positions_from_nil. Qed.

Lemma positions_from_valid (s : nat) (xs : list A) (i : nat) :
  In i (Py.positions_from p s xs) ->
  s <= i /\ exists x, nth_error xs (i - s) = Some x /\ p x = true.
Proof.
  revert s; induction xs as [|x r IH]; intros s; simpl; [intros []|].
  assert (Hr : In i (Py.positions_from p (S s) r) ->
               s <= i /\ exists y, nth_error (x :: r) (i - s) = Some y
                                    /\ p y = true).
  { intros H. destruct (IH _ H) as (Hle & y & Hy & Hp).
    split; [lia|]. exists y. split; [|exact Hp].
    replace (i - s) with (S (i - S s)) by lia. exact Hy. }
  destruct (p x) eqn:E; [|exact Hr].
  intros [<-|H]; [|now apply Hr].
  split; [lia|]. exists x. now rewrite Nat.sub_diag.
Qed.

(** A reference taken from a list points into it. *)
Lemma positions_valid (xs : list A) (i : nat) :
  In i (Py.positions p xs) ->
  exists x, nth_error xs i = Some x /\ p x = true.
Proof.
  intros H. apply positions_from_valid in H.
  now rewrite Nat.sub_0_r in H.
Qed.

Lemma positions_cons (xs : list A) (i : nat) (l : list nat) :
  Py.positions p xs = i :: l ->
  exists x, nth_error xs i = Some x
            /\ filter p xs = x :: Py.deref_all xs l.
Proof.
  intros E.
  destruct (positions_valid xs i) as (x & Hx & _); [rewrite E; now left|].
  exists x. split; [exact Hx|].
  rewrite <- deref_positions_id, E. unfold Py.deref_all. simpl.
  now rewrite Hx.
Qed.

End Positions.

(** ** Running programs *)

Lemma run_bind {A B : Type} (p : prog A) (f : A -> prog B) (c : content) :
  run (bind p f) c = run (f (fst (run p c))) (snd (run p c)).
Proof.
  revert c; induction p as [a|k IH|ts k IH]; intros c; simpl; auto.
Qed.

Lemma writes_bind {A B : Type} (p : prog A) (f : A -> prog B) (c : content) :
  writes (bind p f) c
  = writes p c ++ writes (f (fst (run p c))) (snd (run p c)).
Proof.
  revert c; induction p as [a|k IH|ts k IH]; intros c; simpl; auto.
  now rewrite IH.
Qed.

(** ** get_due_reminders *)

Lemma run_get_due_reminders (now : string) (c : content) :
  run (TaskStorage.get_due_reminders now) c
  = let tasks := TaskStorage.decode c in
    let due := filter (TaskStorage.is_due now) tasks in
    (map mark_notified due,
     match due with
     | [] => c
     | _ :: _ => Json (map (mark_due now) tasks)
     end).
Proof.
  unfold TaskStorage.get_due_reminders. simpl.
  set (tasks := TaskStorage.decode c).
  pose proof (mark_positions (TaskStorage.is_due now) mark_notified tasks) as M.
  pose proof (deref_marked (TaskStorage.is_due now) mark_notified tasks) as D.
  pose proof (positions_nil (TaskStorage.is_due now) tasks) as N.
  destruct (Py.positions (TaskStorage.is_due now) tasks) as [|i l].
  - rewrite (proj1 N eq_refl). reflexivity.
  - rewrite M. cbn [run]. rewrite D.
    destruct (filter (TaskStorage.is_due now) tasks) as [|t r].
    + now specialize (proj2 N eq_refl).
    + reflexivity.
Qed.

Lemma is_due_iff (now : string) (t : Task) :
  TaskStorage.is_due now t = true <-> due_in_words now t.
Proof.
  unfold TaskStorage.is_due, due_in_words.
  rewrite !andb_true_iff, negb_true_iff, String.eqb_eq.
  split.
  - intros [[Hs Hr] Hn]. repeat split; auto.
    destruct (remind_at t) as [r|]; [|discriminate].
    apply andb_true_iff in Hr. destruct Hr as [Hne Hle].
    exists r. repeat split; auto.
    apply negb_true_iff, String.eqb_neq in Hne. exact Hne.
  - intros (Hs & (r & Hr & Hne & Hle) & Hn). repeat split; auto.
    rewrite Hr, Hle, andb_true_r.
    apply negb_true_iff, String.eqb_neq. exact Hne.
Qed.

Lemma mark_due_not_due (now : string) (tasks : list Task) :
  filter (TaskStorage.is_due now) tasks = [] ->
  map (mark_due now) tasks = tasks.
Proof.
  induction tasks as [|t r IH]; simpl; [reflexivity|].
  unfold mark_due at 1.
  destruct (TaskStorage.is_due now t); [discriminate|].
  intros H. now rewrite IH.
Qed.

Lemma decode_after_due (now : string) (file : content) :
  TaskStorage.decode (snd (run (TaskStorage.get_due_reminders now) file))
  = map (mark_due now) (TaskStorage.decode file).
Proof.
  rewrite run_get_due_reminders. cbn [snd].
  destruct (filter (TaskStorage.is_due now) (TaskStorage.decode file)) eqn:E.
  - now rewrite mark_due_not_due.
  - reflexivity.
Qed.

Lemma mark_notified_inj (x y : Task) :
  mark_notified x = mark_notified y -> notified x = notified y -> x = y.
Proof.
  destruct x, y; unfold mark_notified; simpl.
  intros H Hn. injection H as -> -> -> -> -> -> ->. now subst.
Qed.

Lemma is_due_not_notified (now : string) (t : Task) :
  TaskStorage.is_due now t = true -> notified t = false.
Proof. intros H. apply is_due_iff in H. apply H. Qed.

Lemma is_due_mark_notified (now : string) (t : Task) :
  TaskStorage.is_due now (mark_notified t) = false.
Proof.
  unfold TaskStorage.is_due. simpl. apply andb_false_r.
Qed.

(** A task that one call returns is not returned by the next one. *)
Lemma due_then_due_disjoint (now now2 : string) (file : content) (t : Task) :
  In t (fst (run (TaskStorage.get_due_reminders now) file)) ->
  ~ In t (fst (run (TaskStorage.get_due_reminders now2)
                   (snd (run (TaskStorage.get_due_reminders now) file)))).
Proof.
  rewrite (run_get_due_reminders now2), decode_after_due.
  rewrite run_get_due_reminders. cbn [fst].
  rewrite !in_map_iff.
  intros (x & <- & Hx) (y & Hy & Hin).
  apply filter_In in Hx. destruct Hx as [_ Hx].
  apply filter_In in Hin. destruct Hin as [Hin Hdue].
  apply in_map_iff in Hin. destruct Hin as (y0 & <- & _).
  unfold mark_due in *.
  destruct (TaskStorage.is_due now y0) eqn:E.
  - now rewrite is_due_mark_notified in Hdue.
  - apply mark_notified_inj in Hy.
    + subst. congruence.
    + now rewrite (is_due_not_notified _ _ Hx), (is_due_not_notified _ _ Hdue).
Qed.

Lemma due_twice_nil (now : string) (file : content) :
  fst (run (TaskStorage.get_due_reminders now)
           (snd (run (TaskStorage.get_due_reminders now) file))) = [].
Proof.
  rewrite run_get_due_reminders, decode_after_due. cbn [fst].
  induction (TaskStorage.decode file) as [|t r IH]; simpl; [reflexivity|].
  unfold mark_due at 1.
  destruct (TaskStorage.is_due now t) eqn:E.
  - now rewrite is_due_mark_notified.
  - now rewrite E.
Qed.

Lemma run_add_task (ti de : string) (du re : option string) (uuid : N)
  (now : string) (file : content) :
  run (TaskStorage.add_task ti de du re uuid now) file
  = (mkTask (TaskStorage.new_id uuid) ti de du re "pending" false now,
     Json (TaskStorage.decode file
           ++ [mkTask (TaskStorage.new_id uuid) ti de du re
                      "pending" false now])).
Proof. reflexivity. Qed.

(** C1. [get_due_reminders] returns exactly the stored tasks that are
    pending, have a reminder time that is set and not after [now], and are
    not yet notified; the tasks returned are the stored ones, which the call
    marks: every returned task has [notified = true] and is in the persisted
    collection as returned, the other tasks being persisted unchanged.
    Hence, after [add_task] with a reminder time in the past, the first
    [get_due_reminders] returns the new task (last, once), no later call
    returns it again, and a call that follows immediately returns nothing. *)
Theorem get_due_reminders_exactly_once (file : content) (now : string) :
  fst (run (TaskStorage.get_due_reminders now) file)
  = map mark_notified
        (filter (TaskStorage.is_due now) (TaskStorage.decode file))
  /\ (forall t,
        In t (filter (TaskStorage.is_due now) (TaskStorage.decode file))
        <-> In t (TaskStorage.decode file) /\ due_in_words now t)
  /\ TaskStorage.decode (snd (run (TaskStorage.get_due_reminders now) file))
     = map (fun t => if TaskStorage.is_due now t then mark_notified t else t)
           (TaskStorage.decode file)
  /\ (forall t,
        In t (fst (run (TaskStorage.get_due_reminders now) file)) ->
        notified t = true
        /\ In t (TaskStorage.decode
                   (snd (run (TaskStorage.get_due_reminders now) file))))
  /\ (forall ti de du r uuid created now2,
        r <> "" -> (r <=? now) = true ->
        let added :=
          run (TaskStorage.add_task ti de du (Some r) uuid created) file in
        let first := run (TaskStorage.get_due_reminders now) (snd added) in
        let second := run (TaskStorage.get_due_reminders now2) (snd first) in
        fst first
        = map mark_notified
              (filter (TaskStorage.is_due now) (TaskStorage.decode file))
          ++ [mark_notified (fst added)]
        /\ ~ In (mark_notified (fst added)) (fst second)
        /\ fst (run (TaskStorage.get_due_reminders now) (snd first)) = []).
Proof.
  split; [now rewrite run_get_due_reminders|].
  split.
  { intros t. rewrite filter_In, is_due_iff. reflexivity. }
  split; [apply decode_after_due|].
  split.
  { intros t Hin. rewrite decode_after_due.
    rewrite run_get_due_reminders in Hin. cbn [fst] in Hin.
    apply in_map_iff in Hin. destruct Hin as (x & <- & Hx).
    apply filter_In in Hx. destruct Hx as [Hx Hd].
    split; [reflexivity|].
    apply in_map_iff. exists x. split; [|exact Hx].
    unfold mark_due. now rewrite Hd. }
  intros ti de du r uuid created now2 Hne Hle added first second.
  assert (Hfirst : fst first
            = map mark_notified
                (filter (TaskStorage.is_due now) (TaskStorage.decode file))
              ++ [mark_notified (fst added)]).
  { unfold first, added.
    rewrite run_get_due_reminders, run_add_task. cbn [fst snd].
    cbn [TaskStorage.decode TaskStorage.json_load]. rewrite filter_app, map_app. f_equal.
    cbn [filter].
    replace (TaskStorage.is_due now _) with true; [reflexivity|].
    symmetry. apply is_due_iff. repeat split; simpl; auto.
    exists r. auto. }
  split; [exact Hfirst|].
  split.
  - apply due_then_due_disjoint. fold first. rewrite Hfirst.
    apply in_or_app. right. now left.
  - apply due_twice_nil.
Qed.

(** The scenario of [test_due_reminders], on a fresh store. *)
Lemma get_due_reminders_exactly_once_witness :
  fst (run (TaskStorage.get_due_reminders "2026-02-14T08:30:00+00:00")
         (snd (run (TaskStorage.add_task "Past reminder" "" None
                      (Some "2020-01-01T00:00:00")
                      0x123456780000400080000000000000ff
                      "2026-02-14T08:00:00+00:00") TaskStorage.fresh)))
  = [past_reminder].
Proof.
  destruct (get_due_reminders_exactly_once TaskStorage.fresh
              "2026-02-14T08:30:00+00:00") as (_ & _ & _ & _ & H).
  destruct (H "Past reminder" "" None "2020-01-01T00:00:00"
              0x123456780000400080000000000000ff%N
              "2026-02-14T08:00:00+00:00" "2026-02-14T08:31:00+00:00")
    as (H1 & _ & _).
  - discriminate.
  - reflexivity.
  - exact H1.
Defined.

(** ** Two callers of get_due_reminders on one file *)

(** Once a caller has loaded the file, what it will return is fixed,
    whatever is written to the file in the meantime. *)
Lemma get_due_reminders_after_load (now : string) (c : content) :
  exists p,
    step (TaskStorage.get_due_reminders now) c = (p, c)
    /\ forall c', exists c'',
         step p c'
         = (Ret (map mark_notified
                     (filter (TaskStorage.is_due now) (TaskStorage.decode c))),
            c'').
Proof.
  unfold TaskStorage.get_due_reminders. cbn [TaskStorage._load bind step].
  eexists. split; [reflexivity|].
  set (tasks := TaskStorage.decode c).
  pose proof (mark_positions (TaskStorage.is_due now) mark_notified tasks) as M.
  pose proof (deref_marked (TaskStorage.is_due now) mark_notified tasks) as D.
  pose proof (positions_nil (TaskStorage.is_due now) tasks) as N.
  intros c'.
  destruct (Py.positions (TaskStorage.is_due now) tasks) as [|i l].
  - rewrite (proj1 N eq_refl). eexists. reflexivity.
  - rewrite M. cbn [step]. rewrite D. eexists. reflexivity.
Qed.

(** Load, load, save, save: each caller returns every reminder that was due
    in the file it loaded, so with the same clock reading both return the
    same list. *)
Lemma interleaved_get_due_reminders (now1 now2 : string) (file : content) :
  exists file',
    interleave [First; Second; First; Second]
      (TaskStorage.get_due_reminders now1)
      (TaskStorage.get_due_reminders now2) file
    = (Ret (map mark_notified
              (filter (TaskStorage.is_due now1) (TaskStorage.decode file))),
       Ret (map mark_notified
              (filter (TaskStorage.is_due now2) (TaskStorage.decode file))),
       file').
Proof.
  destruct (get_due_reminders_after_load now1 file) as (p & Hp & Hp').
  destruct (get_due_reminders_after_load now2 file) as (q & Hq & Hq').
  cbn [interleave]. rewrite Hp, Hq.
  destruct (Hp' file) as (c1 & ->).
  destruct (Hq' c1) as (c2 & ->).
  now exists c2.
Qed.

(** C2 (what the code does). [get_due_reminders] holds no lock between its
    [_load] and its [_save].  When two callers run it on one file in the
    order load, load, save, save, every reminder that is due in that file
    is returned to both of them. *)
Theorem concurrent_get_due_reminders_report_twice
  (file : content) (now : string) (t : Task) :
  In t (TaskStorage.decode file) ->
  due_in_words now t ->
  exists first second file',
    interleave [First; Second; First; Second]
      (TaskStorage.get_due_reminders now)
      (TaskStorage.get_due_reminders now) file
    = (Ret first, Ret second, file')
    /\ In (mark_notified t) first
    /\ In (mark_notified t) second.
Proof.
  intros Hin Hdue.
  destruct (interleaved_get_due_reminders now now file) as (file' & E).
  exists (map mark_notified
              (filter (TaskStorage.is_due now) (TaskStorage.decode file))),
         (map mark_notified
              (filter (TaskStorage.is_due now) (TaskStorage.decode file))),
         file'.
  assert (In (mark_notified t)
             (map mark_notified
                  (filter (TaskStorage.is_due now)
                          (TaskStorage.decode file)))) as H.
  { apply in_map, filter_In. split; [exact Hin|].
    now apply is_due_iff. }
  auto.
Qed.

(** One due reminder, two callers: both report it. *)
Lemma concurrent_get_due_reminders_report_twice_witness :
  exists first second file',
    interleave [First; Second; First; Second]
      (TaskStorage.get_due_reminders "2026-02-14T08:30:00+00:00")
      (TaskStorage.get_due_reminders "2026-02-14T08:30:00+00:00")
      (Json [reminder])
    = (Ret first, Ret second, file')
    /\ In past_reminder first
    /\ In past_reminder second.
Proof.
  apply (concurrent_get_due_reminders_report_twice (Json [reminder])
           "2026-02-14T08:30:00+00:00" reminder).
  - now left.
  - repeat split. exists "2020-01-01T00:00:00". repeat split. discriminate.
Defined.

(** The same schedule, evaluated. *)
Example load_load_save_save :
  interleave [First; Second; First; Second]
    (TaskStorage.get_due_reminders "2026-02-14T08:30:00+00:00")
    (TaskStorage.get_due_reminders "2026-02-14T08:30:00+00:00")
    (Json [reminder])
  = (Ret [past_reminder], Ret [past_reminder], Json [past_reminder]).
Proof. reflexivity. Qed.

(** With the two calls one after the other, the second reports nothing. *)
Example serialised_get_due_reminders_report_once :
  interleave [First; First; Second; Second]
    (TaskStorage.get_due_reminders "2026-02-14T08:30:00+00:00")
    (TaskStorage.get_due_reminders "2026-02-14T08:30:00+00:00")
    (Json [reminder])
  = (Ret [past_reminder], Ret [], Json [past_reminder]).
Proof. reflexivity. Qed.

(** ** get_task *)

Lemma find_filter {A : Type} (p : A -> bool) (xs : list A) :
  find p xs = hd_error (filter p xs).
Proof.
  induction xs as [|x r IH]; simpl; [reflexivity|].
  destruct (p x); simpl; auto.
Qed.

Lemma filter_nil_forall {A : Type} (p : A -> bool) (xs : list A) :
  filter p xs = [] <-> forall x, In x xs -> p x = false.
Proof.
  induction xs as [|x r IH]; simpl.
  - split; [intros _ y []|reflexivity].
  - destruct (p x) eqn:E.
    + split; [discriminate|]. intros H. specialize (H x (or_introl eq_refl)).
      congruence.
    + rewrite IH. split.
      * intros H y [<-|Hy]; auto.
      * intros H y Hy. apply H. now right.
Qed.

Lemma run_get_task (task_id : string) (file : content) :
  run (TaskStorage.get_task task_id) file
  = (match filter (fun t => id t =? task_id) (TaskStorage.decode file) with
     | t :: _ => Some t
     | [] =>
         if (4 <=? String.length task_id)%nat then
           match filter (fun t => Py.startswith (id t) task_id)
                        (TaskStorage.decode file) with
           | [t] => Some t
           | _ => None
           end
         else None
     end, file).
Proof.
  unfold TaskStorage.get_task. cbn [TaskStorage._load bind run].
  rewrite find_filter.
  destruct (filter (fun t => id t =? task_id) (TaskStorage.decode file))
    as [|t r]; cbn [hd_error]; [|reflexivity].
  destruct (4 <=? String.length task_id)%nat; [|reflexivity].
  destruct (filter _ (TaskStorage.decode file)) as [|t [|t' r]]; reflexivity.
Qed.

(** The reference that [_find] returns points into the list. *)
Lemma _find_valid (tasks : list Task) (s : string) (i : nat) :
  TaskStorage._find tasks s = Some i ->
  exists t, nth_error tasks i = Some t.
Proof.
  unfold TaskStorage._find.
  destruct (Py.positions (fun t => id t =? s) tasks) as [|j l] eqn:E.
  - destruct (4 <=? String.length s)%nat; [|discriminate].
    destruct (Py.positions (fun t => Py.startswith (id t) s) tasks)
      as [|j [|j' l]] eqn:F; try discriminate.
    intros H. injection H as <-.
    destruct (positions_valid (fun t => Py.startswith (id t) s) tasks j)
      as (t & Ht & _); [rewrite F; now left|eauto].
  - intros H. injection H as <-.
    destruct (positions_valid (fun t => id t =? s) tasks j)
      as (t & Ht & _); [rewrite E; now left|eauto].
Qed.

(** [get_task] resolves an id as [_find] does: it returns the dict that
    [_find] refers to. *)
Lemma get_task_as_find (s : string) (file : content) :
  fst (run (TaskStorage.get_task s) file)
  = match TaskStorage._find (TaskStorage.decode file) s with
    | Some i => nth_error (TaskStorage.decode file) i
    | None => None
    end.
Proof.
  rewrite run_get_task. cbn [fst]. unfold TaskStorage._find.
  set (tasks := TaskStorage.decode file).
  destruct (Py.positions (fun t => id t =? s) tasks) as [|j l] eqn:E.
  - apply positions_nil in E. rewrite E.
    destruct (4 <=? String.length s)%nat; [|reflexivity].
    pose proof (positions_from_filter
                  (fun t => Py.startswith (id t) s) 0 tasks) as L.
    fold (Py.positions (fun t => Py.startswith (id t) s) tasks) in L.
    destruct (Py.positions (fun t => Py.startswith (id t) s) tasks)
      as [|j [|j' l]] eqn:F.
    + apply positions_nil in F. now rewrite F.
    + apply positions_cons in F. destruct F as (x & Hx & ->).
      now rewrite Hx.
    + destruct (filter (fun t => Py.startswith (id t) s) tasks)
        as [|x [|y r]]; try discriminate. reflexivity.
  - apply positions_cons in E. destruct E as (x & Hx & ->).
    now rewrite Hx.
Qed.

(** C3. [get_task s] leaves the file alone and returns: the (first) stored
    task whose id equals [s], if there is one; otherwise, when [s] has at
    least 4 characters and exactly one stored task has an id that starts
    with [s], that task; and [None] in every other case, that is, when no
    id equals [s] and either [s] is shorter than 4 characters or the number
    of ids that start with [s] is not one. *)
Theorem get_task_resolution (file : content) (s : string) :
  snd (run (TaskStorage.get_task s) file) = file
  /\ (forall t rest,
        filter (fun x => id x =? s) (TaskStorage.decode file) = t :: rest ->
        fst (run (TaskStorage.get_task s) file) = Some t)
  /\ (forall t,
        In t (TaskStorage.decode file) -> id t = s ->
        exists t', fst (run (TaskStorage.get_task s) file) = Some t'
                   /\ In t' (TaskStorage.decode file) /\ id t' = s)
  /\ (forall t,
        (forall x, In x (TaskStorage.decode file) -> id x <> s) ->
        4 <= String.length s ->
        filter (fun x => Py.startswith (id x) s) (TaskStorage.decode file)
        = [t] ->
        fst (run (TaskStorage.get_task s) file) = Some t)
  /\ ((forall x, In x (TaskStorage.decode file) -> id x <> s) ->
      String.length s < 4
      \/ length (filter (fun x => Py.startswith (id x) s)
                        (TaskStorage.decode file)) <> 1 ->
      fst (run (TaskStorage.get_task s) file) = None).
Proof.
  rewrite run_get_task. cbn [fst snd].
  assert (Hno : (forall x, In x (TaskStorage.decode file) -> id x <> s) ->
                filter (fun x => id x =? s) (TaskStorage.decode file) = []).
  { intros H. apply filter_nil_forall. intros x Hx.
    apply String.eqb_neq. auto. }
  split; [reflexivity|].
  split; [intros t rest ->; reflexivity|].
  split.
  { intros t Hin Hid.
    destruct (filter (fun x => id x =? s) (TaskStorage.decode file))
      as [|t' r] eqn:E.
    - rewrite filter_nil_forall in E. specialize (E t Hin).
      apply String.eqb_neq in E. contradiction.
    - exists t'. split; [reflexivity|].
      assert (H : In t' (filter (fun x => id x =? s)
                                (TaskStorage.decode file)))
        by (rewrite E; now left).
      apply filter_In in H. destruct H as [H1 H2].
      apply String.eqb_eq in H2. auto. }
  split.
  { intros t H Hlen Hp. rewrite (Hno H), Hp.
    apply Nat.leb_le in Hlen. now rewrite Hlen. }
  intros H [Hlen|Hn]; rewrite (Hno H); clear Hno.
  - apply Nat.leb_gt in Hlen. now rewrite Hlen.
  - destruct (4 <=? String.length s)%nat; [|reflexivity].
    destruct (filter _ (TaskStorage.decode file)) as [|t [|t' r]];
      simpl in *; congruence.
Qed.

(** The prefix scenario of the store: ids [abc12345] and [abc99999]. *)
Lemma get_task_resolution_witness :
  fst (run (TaskStorage.get_task "abc1") (Json [task_a; task_b]))
  = Some task_a
  /\ fst (run (TaskStorage.get_task "abc") (Json [task_a; task_b])) = None.
Proof.
  split.
  - destruct (get_task_resolution (Json [task_a; task_b]) "abc1")
      as (_ & _ & _ & H & _).
    apply H.
    + intros x [<-|[<-|[]]]; discriminate.
    + simpl; lia.
    + reflexivity.
  - destruct (get_task_resolution (Json [task_a; task_b]) "abc")
      as (_ & _ & _ & _ & H).
    apply H.
    + intros x [<-|[<-|[]]]; discriminate.
    + left. simpl; lia.
Defined.

(** ** add_task *)

Lemma after_add (n : new_task) (file : content) :
  after (add_call n) file = Json (TaskStorage.decode file ++ [task_of n]).
Proof. reflexivity. Qed.

(** C4, as stated, fails: two [add_task] calls whose uuids differ but
    share their first eight hex digits store two tasks with one id. *)
Lemma add_task_ids_collide :
  a_uuid <> b_uuid
  /\ map id (TaskStorage.decode
               (after_all [add_call new_a; add_call new_b] TaskStorage.fresh))
     = ["12345678"; "12345678"]
  /\ ~ ids_always_distinct.
Proof.
  split; [discriminate|].
  split; [reflexivity|].
  intros H.
  specialize (H TaskStorage.fresh [new_a; new_b] (NoDup_nil _)).
  apply NoDup_cons_iff in H. destruct H as [H _].
  apply H. now left.
Qed.

(** C4, amended. [add_task] appends a task whose id is the first eight hex
    digits of the uuid it draws and compares it with nothing: after any
    sequence of [add_task] calls the ids in the store are the former ids
    followed by the ids drawn, so they are pairwise distinct exactly when
    the ids already stored and the ids drawn by the calls are pairwise
    distinct. *)
Theorem add_task_ids_distinct (file : content) (ns : list new_task) :
  map id (TaskStorage.decode (after_all (map add_call ns) file))
  = map id (TaskStorage.decode file)
    ++ map (fun n => TaskStorage.new_id (n_uuid n)) ns
  /\ (NoDup (map id (TaskStorage.decode (after_all (map add_call ns) file)))
      <-> NoDup (map id (TaskStorage.decode file)
                 ++ map (fun n => TaskStorage.new_id (n_uuid n)) ns)).
Proof.
  assert (E : TaskStorage.decode (after_all (map add_call ns) file)
              = TaskStorage.decode file ++ map task_of ns).
  { unfold after_all.
    revert file; induction ns as [|n r IH]; intros file; simpl.
    - now rewrite app_nil_r.
    - rewrite IH, after_add.
      cbn [TaskStorage.decode TaskStorage.json_load].
      now rewrite <- app_assoc. }
  rewrite E, map_app, map_map. split; reflexivity.
Qed.

Lemma add_task_ids_distinct_witness :
  NoDup (map id (TaskStorage.decode
                   (after_all (map add_call [new_a; new_c])
                              (Json [task_a; task_b])))).
Proof.
  apply (proj2 (proj2 (add_task_ids_distinct (Json [task_a; task_b])
                                             [new_a; new_c]))).
  repeat constructor; simpl; intuition discriminate.
Defined.

(** ** What each call leaves in the file *)

Lemma In_mutate {A : Type} (f : A -> A) (i : nat) (xs : list A) (y : A) :
  In y (Py.mutate f i xs) -> In y xs \/ exists x, In x xs /\ y = f x.
Proof.
  revert i; induction xs as [|x r IH]; intros [|j]; simpl; auto.
  - intros [<-|H]; eauto.
  - intros [<-|H]; auto.
    destruct (IH j H) as [H'|(x' & H1 & H2)]; eauto.
Qed.

Lemma In_remove_first {A : Type} (eqb : A -> A -> bool) (x : A)
  (xs : list A) (y : A) :
  In y (Py.remove_first eqb x xs) -> In y xs.
Proof.
  induction xs as [|z r IH]; simpl; auto.
  destruct (eqb z x); simpl; intuition.
Qed.

Lemma same_id_same_task (tasks : list Task) (a b : Task) :
  NoDup (map id tasks) -> In a tasks -> In b tasks -> id a = id b -> a = b.
Proof.
  induction tasks as [|x r IH]; simpl; [intros _ []|].
  intros H. apply NoDup_cons_iff in H. destruct H as [Hx Hr].
  intros [<-|Ha] [<-|Hb] E; auto.
  - exfalso. apply Hx. rewrite E. now apply in_map.
  - exfalso. apply Hx. rewrite <- E. now apply in_map.
Qed.

Lemma after_get (s : string) (file : content) :
  after (call_get s) file = file.
Proof.
  unfold after, perform. rewrite run_bind, run_get_task. reflexivity.
Qed.

Lemma run_list_tasks_file (f now : string) (file : content) :
  snd (run (TaskStorage.list_tasks f now) file) = file.
Proof.
  unfold TaskStorage.list_tasks. cbn [TaskStorage._load bind run].
  repeat match goal with |- context [if ?b then _ else _] => destruct b end;
    reflexivity.
Qed.

Lemma after_list (f now : string) (file : content) :
  after (call_list f now) file = file.
Proof.
  unfold after, perform. rewrite run_bind. apply run_list_tasks_file.
Qed.

Lemma run_update_task (s : string) (fields : Fields) (file : content) :
  run (TaskStorage.update_task s fields) file
  = match TaskStorage._find (TaskStorage.decode file) s with
    | None => (None, file)
    | Some i =>
        (nth_error (Py.mutate (dict_update fields) i
                              (TaskStorage.decode file)) i,
         Json (Py.mutate (dict_update fields) i (TaskStorage.decode file)))
    end.
Proof.
  unfold TaskStorage.update_task. cbn [TaskStorage._load bind run].
  destruct (TaskStorage._find (TaskStorage.decode file) s); reflexivity.
Qed.

Lemma run_delete_task (s : string) (file : content) :
  run (TaskStorage.delete_task s) file
  = match TaskStorage._find (TaskStorage.decode file) s with
    | None => (None, file)
    | Some i =>
        match nth_error (TaskStorage.decode file) i with
        | None => (None, file)
        | Some task =>
            (Some task,
             Json (Py.remove_first dict_eqb task (TaskStorage.decode file)))
        end
    end.
Proof.
  unfold TaskStorage.delete_task. cbn [TaskStorage._load bind run].
  destruct (TaskStorage._find (TaskStorage.decode file) s) as [i|];
    [|reflexivity].
  destruct (nth_error (TaskStorage.decode file) i); reflexivity.
Qed.

Lemma after_update (s : string) (fields : Fields) (file : content) :
  after (call_update s fields) file
  = match TaskStorage._find (TaskStorage.decode file) s with
    | None => file
    | Some i =>
        Json (Py.mutate (dict_update fields) i (TaskStorage.decode file))
    end.
Proof.
  unfold after, perform. rewrite run_bind, run_update_task.
  destruct (TaskStorage._find (TaskStorage.decode file) s); reflexivity.
Qed.

Lemma after_complete (s : string) (file : content) :
  after (call_complete s) file = after (call_update s TaskStorage.completed_fields) file.
Proof. reflexivity. Qed.

Lemma after_delete (s : string) (file : content) :
  after (call_delete s) file
  = match TaskStorage._find (TaskStorage.decode file) s with
    | None => file
    | Some i =>
        match nth_error (TaskStorage.decode file) i with
        | None => file
        | Some task =>
            Json (Py.remove_first dict_eqb task (TaskStorage.decode file))
        end
    end.
Proof.
  unfold after, perform. rewrite run_bind, run_delete_task.
  destruct (TaskStorage._find (TaskStorage.decode file) s) as [i|];
    [|reflexivity].
  destruct (nth_error (TaskStorage.decode file) i); reflexivity.
Qed.

Lemma after_due_reminders (now : string) (file : content) :
  TaskStorage.decode (after (call_due_reminders now) file)
  = map (mark_due now) (TaskStorage.decode file).
Proof.
  unfold after, perform. rewrite run_bind. apply decode_after_due.
Qed.

(** ** The notified flag across calls *)

Lemma notified_mark_due (now : string) (t : Task) :
  notified t = true -> notified (mark_due now t) = true.
Proof. unfold mark_due. now destruct (TaskStorage.is_due now t). Qed.

Lemma id_mark_due (now : string) (t : Task) : id (mark_due now t) = id t.
Proof. unfold mark_due. now destruct (TaskStorage.is_due now t). Qed.

Lemma ids_mark_due (now : string) (tasks : list Task) :
  map id (map (mark_due now) tasks) = map id tasks.
Proof.
  rewrite map_map. apply map_ext. intros t. apply id_mark_due.
Qed.

Lemma notified_after_update (s : string) (fields : Fields) (file : content)
  (t t' : Task) :
  NoDup (map id (TaskStorage.decode file)) ->
  set_id fields = None ->
  set_notified fields <> Some false ->
  In t (TaskStorage.decode file) -> notified t = true ->
  In t' (TaskStorage.decode (after (call_update s fields) file)) ->
  id t' = id t ->
  notified t' = true.
Proof.
  intros Hnd Hid Hno Ht Hn Ht' E.
  rewrite after_update in Ht'.
  destruct (TaskStorage._find (TaskStorage.decode file) s) as [i|].
  - cbn [TaskStorage.decode TaskStorage.json_load] in Ht'.
    apply In_mutate in Ht'. destruct Ht' as [Ht'|(x & Hx & ->)].
    + now rewrite (same_id_same_task _ _ _ Hnd Ht' Ht E).
    + assert (x = t) as ->.
      { apply (same_id_same_task _ _ _ Hnd Hx Ht).
        rewrite <- E. simpl. now rewrite Hid. }
      simpl. rewrite Hn.
      destruct (set_notified fields) as [[|]|]; simpl; congruence.
  - now rewrite (same_id_same_task _ _ _ Hnd Ht' Ht E).
Qed.

(** C5, as stated, fails on [update_task]: it assigns whatever fields it is
    given, the notified flag included. *)
Lemma update_task_resets_notified :
  notified past_reminder = true
  /\ after (call_update "12345678" reset_fields) (Json [past_reminder])
     = Json [reminder]
  /\ notified reminder = false
  /\ ~ notified_never_reset.
Proof.
  repeat split.
  intros H.
  specialize (H (call_update "12345678" reset_fields) (Json [past_reminder])
                past_reminder reminder).
  assert (notified reminder = true); [|discriminate].
  apply H; simpl; auto.
  repeat constructor. simpl. tauto.
Qed.

(** C5, amended. In a store whose ids are distinct, under a call that
    respects them, a task that is notified and stays in the store (a task
    with its id is there after the call) is still notified after the call:
    this holds for add, get, list, complete, delete and due_reminders, and
    for update unless the call itself assigns [notified=False]. *)
Theorem notified_monotonic (c : call) (file : content) (t t' : Task) :
  NoDup (map id (TaskStorage.decode file)) ->
  keeps_ids c file ->
  ~ resets_notified c ->
  In t (TaskStorage.decode file) -> notified t = true ->
  In t' (TaskStorage.decode (after c file)) -> id t' = id t ->
  notified t' = true.
Proof.
  intros Hnd Hk Hr Ht Hn Ht' E.
  destruct c as [ti de du re uuid now|s|f now|s fields|s|s|now].
  - change (call_add ti de du re uuid now)
      with (add_call (mkNew ti de du re uuid now)) in Ht'.
    rewrite after_add in Ht'. cbn [TaskStorage.decode TaskStorage.json_load] in Ht'.
    apply in_app_or in Ht'. destruct Ht' as [Ht'|[<-|[]]].
    + now rewrite (same_id_same_task _ _ _ Hnd Ht' Ht E).
    + exfalso. apply Hk. simpl in E. rewrite E. now apply in_map.
  - rewrite after_get in Ht'.
    now rewrite (same_id_same_task _ _ _ Hnd Ht' Ht E).
  - rewrite after_list in Ht'.
    now rewrite (same_id_same_task _ _ _ Hnd Ht' Ht E).
  - now apply (notified_after_update s fields file t t').
  - rewrite after_complete in Ht'.
    apply (notified_after_update s TaskStorage.completed_fields file t t');
      auto; discriminate.
  - rewrite after_delete in Ht'.
    assert (In t' (TaskStorage.decode file)) as Hin.
    { destruct (TaskStorage._find (TaskStorage.decode file) s) as [i|]; auto.
      destruct (nth_error (TaskStorage.decode file) i); auto.
      now apply In_remove_first in Ht'. }
    now rewrite (same_id_same_task _ _ _ Hnd Hin Ht E).
  - rewrite after_due_reminders in Ht'.
    apply in_map_iff in Ht'. destruct Ht' as (x & <- & Hx).
    rewrite id_mark_due in E.
    rewrite (same_id_same_task _ _ _ Hnd Hx Ht E).
    now apply notified_mark_due.
Qed.

Lemma notified_monotonic_witness :
  notified (mkTask "12345678" "Past reminder" "" None
                   (Some "2020-01-01T00:00:00") "completed" true
                   "2026-02-14T08:00:00+00:00") = true.
Proof.
  apply (notified_monotonic (call_complete "1234")
           (Json [past_reminder; task_a]) past_reminder).
  - repeat constructor; simpl; intuition discriminate.
  - exact I.
  - intros [].
  - now left.
  - reflexivity.
  - now left.
  - reflexivity.
Defined.

(** ** Completed tasks and the due-reminder query *)

Lemma nth_error_mutate {A : Type} (f : A -> A) (i : nat) (xs : list A) :
  nth_error (Py.mutate f i xs) i = option_map f (nth_error xs i).
Proof.
  revert i; induction xs as [|x r IH]; intros [|j]; simpl; auto.
Qed.

Lemma is_due_completed (now : string) (t : Task) :
  status t = "completed" -> TaskStorage.is_due now t = false.
Proof. unfold TaskStorage.is_due. now intros ->. Qed.

Lemma due_are_pending (now : string) (file : content) (t : Task) :
  In t (fst (run (TaskStorage.get_due_reminders now) file)) ->
  status t = "pending".
Proof.
  rewrite run_get_due_reminders. cbn [fst]. rewrite in_map_iff.
  intros (x & <- & Hx). apply filter_In in Hx. destruct Hx as [_ Hx].
  apply is_due_iff in Hx. apply Hx.
Qed.

Lemma completed_stays (now : string) (file : content) (t : Task) :
  status t = "completed" ->
  In t (TaskStorage.decode file) ->
  In t (TaskStorage.decode
          (snd (run (TaskStorage.get_due_reminders now) file))).
Proof.
  intros Hs Hin. rewrite decode_after_due. apply in_map_iff.
  exists t. split; [|exact Hin].
  unfold mark_due. now rewrite is_due_completed.
Qed.

Lemma poll_never_completed (nows : list string) (file : content)
  (t : Task) (due : list Task) :
  status t = "completed" -> In due (poll nows file) -> ~ In t due.
Proof.
  intros Hs. revert file; induction nows as [|now r IH]; intros file; simpl.
  - intros [].
  - intros [<-|H]; [|now apply (IH _ H)].
    intros Hin. apply due_are_pending in Hin. congruence.
Qed.

Lemma after_polls_completed (nows : list string) (file : content)
  (t : Task) :
  status t = "completed" ->
  In t (TaskStorage.decode file) ->
  In t (TaskStorage.decode
          (after_all (map call_due_reminders nows) file)).
Proof.
  intros Hs. unfold after_all.
  revert file; induction nows as [|now r IH]; intros file Hin; simpl; auto.
  apply IH. rewrite after_due_reminders. apply in_map_iff.
  exists t. split; [|exact Hin].
  unfold mark_due. now rewrite is_due_completed.
Qed.

Lemma run_complete_task (s : string) (file : content) (t : Task) :
  fst (run (TaskStorage.complete_task s) file) = Some t ->
  status t = "completed"
  /\ In t (TaskStorage.decode (snd (run (TaskStorage.complete_task s) file))).
Proof.
  unfold TaskStorage.complete_task. rewrite run_update_task.
  destruct (TaskStorage._find (TaskStorage.decode file) s) as [i|];
    cbn [fst snd]; [|discriminate].
  intros H. split.
  - rewrite nth_error_mutate in H.
    destruct (nth_error (TaskStorage.decode file) i); [|discriminate].
    injection H as <-. reflexivity.
  - cbn [TaskStorage.decode TaskStorage.json_load]. now apply nth_error_In in H.
Qed.

(** ** list_tasks *)

Lemma is_overdue_iff (now : string) (t : Task) :
  TaskStorage.is_overdue now t = true <-> overdue_in_words now t.
Proof.
  unfold TaskStorage.is_overdue, overdue_in_words.
  rewrite andb_true_iff, String.eqb_eq.
  split.
  - intros [Hs Hd]. split; auto.
    destruct (due_at t) as [d|]; [|discriminate].
    apply andb_true_iff in Hd. destruct Hd as [Hne Hlt].
    exists d. repeat split; auto.
    apply negb_true_iff, String.eqb_neq in Hne. exact Hne.
  - intros (Hs & d & Hd & Hne & Hlt). split; auto.
    rewrite Hd, Hlt, andb_true_r.
    apply negb_true_iff, String.eqb_neq. exact Hne.
Qed.

Lemma run_list_overdue (now : string) (file : content) :
  run (TaskStorage.list_tasks "overdue" now) file
  = (filter (TaskStorage.is_overdue now) (TaskStorage.decode file), file).
Proof. reflexivity. Qed.

Lemma run_list_all (now : string) (file : content) :
  run (TaskStorage.list_tasks "all" now) file
  = (TaskStorage.decode file, file).
Proof. reflexivity. Qed.

(** C7. [list_tasks("overdue")] returns, in storage order, exactly the
    stored tasks that are pending and whose due time is set and strictly
    less than the current timestamp as a string; so no completed task is
    returned, whatever its due time.  [list_tasks("all")] returns the
    stored collection as it is, which is append order: after an [add_task]
    it is the former list followed by the new task.  Neither writes. *)
Theorem list_tasks_overdue_and_all (file : content) (now : string) :
  run (TaskStorage.list_tasks "overdue" now) file
  = (filter (TaskStorage.is_overdue now) (TaskStorage.decode file), file)
  /\ (forall t,
        In t (fst (run (TaskStorage.list_tasks "overdue" now) file))
        <-> In t (TaskStorage.decode file) /\ overdue_in_words now t)
  /\ (forall t,
        status t = "completed" ->
        ~ In t (fst (run (TaskStorage.list_tasks "overdue" now) file)))
  /\ run (TaskStorage.list_tasks "all" now) file
     = (TaskStorage.decode file, file)
  /\ (forall n : new_task,
        fst (run (TaskStorage.list_tasks "all" now)
                 (after (add_call n) file))
        = fst (run (TaskStorage.list_tasks "all" now) file) ++ [task_of n]).
Proof.
  rewrite run_list_overdue, run_list_all. cbn [fst].
  split; [reflexivity|].
  split.
  { intros t. rewrite filter_In, is_overdue_iff. reflexivity. }
  split.
  { intros t Hs Hin. apply filter_In in Hin. destruct Hin as [_ Hin].
    apply is_overdue_iff in Hin. destruct Hin as [Hp _]. congruence. }
  split; [reflexivity|].
  intros n. rewrite run_list_all, after_add. reflexivity.
Qed.

(** The overdue scenario: a pending task with a past due time is listed, a
    completed one with the same due time is not. *)
Lemma list_tasks_overdue_and_all_witness :
  In task_b
     (fst (run (TaskStorage.list_tasks "overdue" "2026-02-14T08:30:00+00:00")
               (Json [task_a; task_b; task_b_done])))
  /\ ~ In task_b_done
       (fst (run (TaskStorage.list_tasks "overdue"
                    "2026-02-14T08:30:00+00:00")
                 (Json [task_a; task_b; task_b_done]))).
Proof.
  destruct (list_tasks_overdue_and_all (Json [task_a; task_b; task_b_done])
              "2026-02-14T08:30:00+00:00") as (_ & H1 & H2 & _).
  split.
  - apply H1. split.
    + simpl. tauto.
    + split; [reflexivity|].
      exists "2020-01-01T10:00:00". repeat split. discriminate.
  - apply H2. reflexivity.
Defined.

(** ** A backing file that does not parse *)

(** On a backing file whose text is not JSON, [_load] returns the
    empty list, and so every call of the store returns what it returns on
    the empty collection and writes what it writes there; the file is then
    either the one written or, when the call writes nothing, still the
    malformed text. *)
Theorem malformed_file_reads_as_empty (text : string) :
  run TaskStorage._load (Malformed text) = ([], Malformed text)
  /\ forall c : call,
       fst (run (perform c) (Malformed text))
       = fst (run (perform c) (Json []))
       /\ writes (perform c) (Malformed text) = writes (perform c) (Json [])
       /\ (after c (Malformed text) = after c (Json [])
           \/ writes (perform c) (Malformed text) = []
              /\ after c (Malformed text) = Malformed text).
Proof.
  split; [reflexivity|].
  intros [ti de du re uuid now|s|f now|s fields|s|s|now]; unfold after.
  - repeat split. now left.
  - unfold perform, TaskStorage.get_task.
    cbn [TaskStorage._load bind run writes TaskStorage.decode TaskStorage.json_load find filter].
    destruct (4 <=? String.length s)%nat; repeat split; now right.
  - unfold perform, TaskStorage.list_tasks.
    cbn [TaskStorage._load bind run writes TaskStorage.decode TaskStorage.json_load filter].
    repeat match goal with |- context [if ?b then _ else _] => destruct b end;
      repeat split; now right.
  - unfold perform, TaskStorage.update_task, TaskStorage._find.
    cbn [TaskStorage._load bind run writes TaskStorage.decode TaskStorage.json_load
         Py.positions Py.positions_from].
    destruct (4 <=? String.length s)%nat; repeat split; now right.
  - unfold perform, TaskStorage.complete_task, TaskStorage.update_task,
      TaskStorage._find.
    cbn [TaskStorage._load bind run writes TaskStorage.decode TaskStorage.json_load
         Py.positions Py.positions_from].
    destruct (4 <=? String.length s)%nat; repeat split; now right.
  - unfold perform, TaskStorage.delete_task, TaskStorage._find.
    cbn [TaskStorage._load bind run writes TaskStorage.decode TaskStorage.json_load
         Py.positions Py.positions_from].
    destruct (4 <=? String.length s)%nat; repeat split; now right.
  - repeat split. now right.
Qed.

(** ** The writes of get_due_reminders *)

Lemma writes_get_due_reminders (now : string) (file : content) :
  writes (TaskStorage.get_due_reminders now) file
  = match filter (TaskStorage.is_due now) (TaskStorage.decode file) with
    | [] => []
    | _ :: _ => [map (mark_due now) (TaskStorage.decode file)]
    end.
Proof.
  unfold TaskStorage.get_due_reminders.
  cbn [TaskStorage._load bind writes].
  set (tasks := TaskStorage.decode file).
  pose proof (mark_positions (TaskStorage.is_due now) mark_notified tasks) as M.
  pose proof (positions_nil (TaskStorage.is_due now) tasks) as N.
  destruct (Py.positions (TaskStorage.is_due now) tasks) as [|i l].
  - rewrite (proj1 N eq_refl). reflexivity.
  - rewrite M. cbn [TaskStorage._save bind writes].
    destruct (filter (TaskStorage.is_due now) tasks) as [|t r].
    + now specialize (proj2 N eq_refl).
    + reflexivity.
Qed.

(** C9. When [get_due_reminders] selects no task, it does not call
    [_save]: nothing is written and the file, hence every field of every
    task, is as it was. *)
Theorem get_due_reminders_none_due_no_write (file : content) (now : string) :
  fst (run (TaskStorage.get_due_reminders now) file) = [] ->
  writes (TaskStorage.get_due_reminders now) file = []
  /\ snd (run (TaskStorage.get_due_reminders now) file) = file.
Proof.
  rewrite run_get_due_reminders, writes_get_due_reminders. cbn [fst snd].
  destruct (filter (TaskStorage.is_due now) (TaskStorage.decode file));
    [auto|discriminate].
Qed.

(** Nothing is due in a store that holds a notified reminder, a task
    without reminder and a completed one. *)
Lemma get_due_reminders_none_due_no_write_witness :
  writes (TaskStorage.get_due_reminders "2026-02-14T08:30:00+00:00")
         (Json [past_reminder; task_a; done_reminder]) = []
  /\ snd (run (TaskStorage.get_due_reminders "2026-02-14T08:30:00+00:00")
              (Json [past_reminder; task_a; done_reminder]))
     = Json [past_reminder; task_a; done_reminder].
Proof.
  apply (get_due_reminders_none_due_no_write
           (Json [past_reminder; task_a; done_reminder])
           "2026-02-14T08:30:00+00:00").
  reflexivity.
Defined.

(** ** Filters that list_tasks does not know *)

Lemma valid_filter_iff (f : string) :
  existsb (String.eqb f) ListTasksTool.VALID_FILTERS = true
  <-> In f ListTasksTool.VALID_FILTERS.
Proof.
  rewrite existsb_exists. split.
  - intros (x & Hx & E). apply String.eqb_eq in E. now subst.
  - intros H. exists f. split; [exact H|apply String.eqb_refl].
Qed.

(** C10. Given a filter that is none of all, pending, completed, overdue,
    [TaskStorage.list_tasks] returns the whole collection, as it does for
    "all"; such a filter is turned down by [ListTasksTool.handle] alone,
    which answers with a failure and does not call the store, while it
    passes every valid filter on to the store. *)
Theorem list_tasks_unknown_filter (f now : string) (file : content) :
  ~ In f ListTasksTool.VALID_FILTERS ->
  run (TaskStorage.list_tasks f now) file
  = run (TaskStorage.list_tasks "all" now) file
  /\ run (TaskStorage.list_tasks f now) file = (TaskStorage.decode file, file)
  /\ run (ListTasksTool.handle (Some f) now) file
     = (ListTasksTool.failure
          ("Invalid filter '" ++ f ++ "'. Must be one of: "
           ++ "all, completed, overdue, pending."), file)
  /\ writes (ListTasksTool.handle (Some f) now) file = []
  /\ forall g, In g ListTasksTool.VALID_FILTERS ->
       run (ListTasksTool.handle (Some g) now) file
       = (ListTasksTool.success g
            (length (fst (run (TaskStorage.list_tasks g now) file)))
            (fst (run (TaskStorage.list_tasks g now) file)), file).
Proof.
  intros Hf.
  assert (Hall : (f =? "all") = false)
    by (apply String.eqb_neq; intros ->; apply Hf; simpl; tauto).
  assert (Hpen : (f =? "pending") = false)
    by (apply String.eqb_neq; intros ->; apply Hf; simpl; tauto).
  assert (Hcom : (f =? "completed") = false)
    by (apply String.eqb_neq; intros ->; apply Hf; simpl; tauto).
  assert (Hove : (f =? "overdue") = false)
    by (apply String.eqb_neq; intros ->; apply Hf; simpl; tauto).
  assert (Hrun : run (TaskStorage.list_tasks f now) file
                 = (TaskStorage.decode file, file)).
  { unfold TaskStorage.list_tasks. cbn [TaskStorage._load bind run].
    now rewrite Hall, Hpen, Hcom, Hove. }
  assert (Hinv : existsb (String.eqb f) ListTasksTool.VALID_FILTERS = false).
  { simpl. now rewrite Hall, Hpen, Hcom, Hove. }
  split; [now rewrite Hrun, run_list_all|].
  split; [exact Hrun|].
  unfold ListTasksTool.handle.
  split; [now rewrite Hinv|].
  split; [now rewrite Hinv|].
  intros g Hg. apply valid_filter_iff in Hg. rewrite Hg. cbn [negb].
  rewrite run_bind. cbn [run]. now rewrite run_list_tasks_file.
Qed.

Lemma list_tasks_unknown_filter_witness :
  run (TaskStorage.list_tasks "done" "2026-02-14T08:30:00+00:00")
      (Json [task_a; task_b_done])
  = ([task_a; task_b_done], Json [task_a; task_b_done]).
Proof.
  destruct (list_tasks_unknown_filter "done" "2026-02-14T08:30:00+00:00"
              (Json [task_a; task_b_done])) as (_ & H & _).
  - simpl. intuition discriminate.
  - exact H.
Defined.

(** ** The id drawn by add_task *)

Lemma str_app_assoc (a b c : string) : ((a ++ b) ++ c = a ++ (b ++ c))%string.
Proof. induction a as [|x a IH]; simpl; [reflexivity|now rewrite IH]. Qed.

Lemma str_app_nil_r (a : string) : (a ++ "" = a)%string.
Proof. induction a as [|x a IH]; simpl; [reflexivity|now rewrite IH]. Qed.

Lemma str_app_length (a b : string) :
  String.length (a ++ b) = String.length a + String.length b.
Proof. induction a as [|x a IH]; simpl; [reflexivity|now rewrite IH]. Qed.

Lemma take_app (a b : string) : Py.take (String.length a) (a ++ b) = a.
Proof.
  unfold Py.take. induction a as [|x a IH]; simpl.
  - now destruct b.
  - now rewrite IH.
Qed.

Lemma str_app_inj (a a' b b' : string) :
  String.length a = String.length a' ->
  (a ++ b = a' ++ b')%string -> a = a' /\ b = b'.
Proof.
  revert a'; induction a as [|x a IH]; intros [|x' a']; simpl;
    try discriminate; auto.
  intros L E. injection L as L. injection E as -> E.
  destruct (IH a' L E) as [-> ->]. auto.
Qed.

Lemma hex_digits_acc (k : nat) (n : N) (acc : string) :
  Py.hex_digits k n acc = (Py.hex_digits k n "" ++ acc)%string.
Proof.
  revert n acc; induction k as [|k IH]; intros n acc; simpl; [reflexivity|].
  rewrite IH, (IH _ (String _ "")), str_app_assoc. reflexivity.
Qed.

Lemma hex_digits_length (k : nat) (n : N) :
  String.length (Py.hex_digits k n "") = k.
Proof.
  revert n; induction k as [|k IH]; intros n; simpl; [reflexivity|].
  rewrite hex_digits_acc, str_app_length, IH. simpl. lia.
Qed.

(** The [k + j] digits of [n] are the [j] digits of [n / 16^k] followed by
    the [k] low digits of [n]. *)
Lemma hex_digits_split (j k : nat) (n : N) :
  Py.hex_digits (k + j) n ""
  = (Py.hex_digits j (n / 16 ^ N.of_nat k) ""
     ++ Py.hex_digits k n "")%string.
Proof.
  revert n; induction k as [|k IH]; intros n.
  - simpl. now rewrite N.div_1_r, str_app_nil_r.
  - cbn [Nat.add Py.hex_digits].
    rewrite hex_digits_acc, IH, (hex_digits_acc k _ (String _ "")).
    rewrite str_app_assoc, N.Div0.div_div.
    replace (16 * 16 ^ N.of_nat k)%N with (16 ^ N.of_nat (S k))%N
      by (rewrite Nat2N.inj_succ, N.pow_succ_r'; reflexivity).
    reflexivity.
Qed.

Lemma hex_value_digit (n : N) : (n < 16)%N -> Py.hex_value (Py.hex_digit n) = n.
Proof.
  intros H.
  assert (E : In n [0; 1; 2; 3; 4; 5; 6; 7; 8; 9; 10; 11; 12; 13; 14; 15]%N).
  { simpl. lia. }
  simpl in E.
  repeat (destruct E as [<-|E]; [reflexivity|]). destruct E.
Qed.

Lemma hex_digits_inj (k : nat) (n m : N) :
  Py.hex_digits k n "" = Py.hex_digits k m "" ->
  (n mod 16 ^ N.of_nat k = m mod 16 ^ N.of_nat k)%N.
Proof.
  revert n m; induction k as [|k IH]; intros n m.
  - intros _. simpl. now rewrite !N.mod_1_r.
  - cbn [Py.hex_digits].
    rewrite (hex_digits_acc k (n / 16)), (hex_digits_acc k (m / 16)).
    intros E. apply str_app_inj in E; [|now rewrite !hex_digits_length].
    destruct E as [E1 E2]. injection E2 as E2.
    apply IH in E1.
    apply (f_equal Py.hex_value) in E2.
    rewrite !hex_value_digit in E2 by (apply N.mod_lt; discriminate).
    rewrite Nat2N.inj_succ, N.pow_succ_r'.
    rewrite !N.Div0.mod_mul_r. congruence.
Qed.

Lemma hex_digits_mod (k : nat) (n m : N) :
  (n mod 16 ^ N.of_nat k = m mod 16 ^ N.of_nat k)%N ->
  Py.hex_digits k n "" = Py.hex_digits k m "".
Proof.
  revert n m; induction k as [|k IH]; intros n m; [reflexivity|].
  rewrite Nat2N.inj_succ, N.pow_succ_r', !N.Div0.mod_mul_r.
  intros E. cbn [Py.hex_digits].
  assert (Hn : (n mod 16 < 16)%N) by (apply N.mod_lt; discriminate).
  assert (Hm : (m mod 16 < 16)%N) by (apply N.mod_lt; discriminate).
  assert (E0 : (n mod 16 = m mod 16)%N /\
               ((n / 16) mod 16 ^ N.of_nat k
                = (m / 16) mod 16 ^ N.of_nat k)%N).
  { revert E Hn Hm.
    generalize (n mod 16)%N, (m mod 16)%N,
      ((n / 16) mod 16 ^ N.of_nat k)%N, ((m / 16) mod 16 ^ N.of_nat k)%N.
    intros; lia. }
  destruct E0 as [E0 E1].
  rewrite (hex_digits_acc k (n / 16)), (hex_digits_acc k (m / 16)).
  now rewrite E0, (IH _ _ E1).
Qed.

(** The id is the hexadecimal writing of the leading 32 bits of the
    uuid. *)
Lemma new_id_leading_bits (uuid : N) :
  TaskStorage.new_id uuid = Py.hex_digits 8 (uuid / 2 ^ 96) "".
Proof.
  unfold TaskStorage.new_id, Py.uuid_hex.
  change 32 with (24 + 8).
  rewrite hex_digits_split.
  rewrite <- (hex_digits_length 8 (uuid / 16 ^ N.of_nat 24)) at 1.
  rewrite take_app. reflexivity.
Qed.

(** Two uuids draw one id exactly when their leading 32 bits agree. *)
Lemma new_id_collision_iff (u v : N) :
  TaskStorage.new_id u = TaskStorage.new_id v
  <-> ((u / 2 ^ 96) mod 2 ^ 32 = (v / 2 ^ 96) mod 2 ^ 32)%N.
Proof.
  rewrite !new_id_leading_bits.
  split.
  - intros E. apply hex_digits_inj in E. exact E.
  - intros E. apply hex_digits_mod. exact E.
Qed.

(** ** More on references: the first match and the only match *)

Section MorePositions.

Context {A : Type} (p : A -> bool).

Lemma positions_from_head (s : nat) (xs : list A) (i : nat) (l : list nat) :
  Py.positions_from p s xs = i :: l ->
  forall k x, s + k < i -> nth_error xs k = Some x -> p x = false.
Proof.
  revert s; induction xs as [|y r IH]; intros s; simpl; [discriminate|].
  destruct (p y) eqn:E.
  - intros H. injection H as <- _. intros k x Hk. lia.
  - intros H [|k] x Hk; simpl.
    + now intros [= <-].
    + apply (IH (S s) H). lia.
Qed.

(** The head of the references is the first element that satisfies [p]. *)
Lemma positions_head (xs : list A) (i : nat) (l : list nat) :
  Py.positions p xs = i :: l ->
  forall k x, k < i -> nth_error xs k = Some x -> p x = false.
Proof. intros H k x Hk. now apply (positions_from_head 0 xs i l H). Qed.

Lemma positions_from_complete (s : nat) (xs : list A) (k : nat) (x : A) :
  nth_error xs k = Some x -> p x = true ->
  In (s + k) (Py.positions_from p s xs).
Proof.
  revert s k; induction xs as [|y r IH]; intros s [|k]; simpl;
    try discriminate.
  - intros [= <-] ->. left. lia.
  - intros Hk Hp.
    assert (In (s + S k) (Py.positions_from p (S s) r)) as H.
    { replace (s + S k) with (S s + k) by lia. now apply IH. }
    destruct (p y); [now right|exact H].
Qed.

(** Every element that satisfies [p] is referred to. *)
Lemma positions_complete (xs : list A) (k : nat) (x : A) :
  nth_error xs k = Some x -> p x = true -> In k (Py.positions p xs).
Proof. intros H Hp. exact (positions_from_complete 0 xs k x H Hp). Qed.

End MorePositions.

Lemma positions_from_map {A B : Type} (g : A -> B) (p : B -> bool)
  (s : nat) (xs : list A) :
  Py.positions_from (fun x => p (g x)) s xs
  = Py.positions_from p s (map g xs).
Proof.
  revert s; induction xs as [|x r IH]; intros s; simpl; [reflexivity|].
  now rewrite IH.
Qed.

(** [_find] looks at nothing but the ids. *)
Lemma _find_ids (xs ys : list Task) (s : string) :
  map id xs = map id ys -> TaskStorage._find xs s = TaskStorage._find ys s.
Proof.
  intros E. unfold TaskStorage._find, Py.positions.
  rewrite (positions_from_map id (fun i => i =? s) 0 xs).
  rewrite (positions_from_map id (fun i => i =? s) 0 ys).
  rewrite (positions_from_map id (fun i => Py.startswith i s) 0 xs).
  rewrite (positions_from_map id (fun i => Py.startswith i s) 0 ys).
  now rewrite E.
Qed.

Lemma opt_eqb_eq (a b : option string) : opt_eqb a b = true <-> a = b.
Proof.
  destruct a as [x|], b as [y|]; simpl; try (split; congruence).
  rewrite String.eqb_eq. split; congruence.
Qed.

(** [==] on task dicts is equality of the records. *)
Lemma dict_eqb_eq (a b : Task) : dict_eqb a b = true <-> a = b.
Proof.
  unfold dict_eqb.
  rewrite !andb_true_iff, !String.eqb_eq, !opt_eqb_eq, Bool.eqb_true_iff.
  destruct a, b; simpl. split.
  - intros [[[[[[[-> ->] ->] ->] ->] ->] ->] ->]. reflexivity.
  - intros [= -> -> -> -> -> -> -> ->]. repeat split.
Qed.

(** The dict that [_find] refers to, and no dict before it, is equal to
    itself: [tasks.remove(task)] removes the very dict that was found. *)
Lemma _find_first (tasks : list Task) (s : string) (i : nat) (t : Task) :
  TaskStorage._find tasks s = Some i ->
  nth_error tasks i = Some t ->
  forall k u, k < i -> nth_error tasks k = Some u -> dict_eqb u t = false.
Proof.
  unfold TaskStorage._find. intros H Ht k u Hk Hu.
  destruct (dict_eqb u t) eqn:E; [|reflexivity].
  apply dict_eqb_eq in E. subst u. exfalso.
  destruct (Py.positions (fun x => id x =? s) tasks) as [|j l] eqn:P.
  - destruct (4 <=? String.length s)%nat; [|discriminate].
    destruct (Py.positions (fun x => Py.startswith (id x) s) tasks)
      as [|j [|j' l]] eqn:Q; try discriminate.
    injection H as ->.
    destruct (positions_valid (fun x => Py.startswith (id x) s) tasks i)
      as (t' & Ht' & Hp); [rewrite Q; now left|].
    assert (t' = t) by congruence. subst t'.
    pose proof (positions_complete (fun x => Py.startswith (id x) s)
                  tasks k t Hu Hp) as Hin.
    rewrite Q in Hin. destruct Hin as [Hin|[]]. lia.
  - injection H as ->.
    destruct (positions_valid (fun x => id x =? s) tasks i)
      as (t' & Ht' & Hp); [rewrite P; now left|].
    assert (t' = t) by congruence. subst t'.
    pose proof (positions_head (fun x => id x =? s) tasks i l P k t Hk Hu).
    congruence.
Qed.

Lemma remove_first_at {A : Type} (eqb : A -> A -> bool) (xs : list A)
  (i : nat) (t : A) :
  nth_error xs i = Some t ->
  eqb t t = true ->
  (forall k u, k < i -> nth_error xs k = Some u -> eqb u t = false) ->
  Py.remove_first eqb t xs = firstn i xs ++ skipn (S i) xs.
Proof.
  revert i; induction xs as [|x r IH]; intros [|i]; simpl; try discriminate.
  - intros [= ->] -> _. reflexivity.
  - intros Ht Hrefl Hbefore.
    rewrite (Hbefore 0 x) by (simpl; auto; lia).
    f_equal. apply IH; auto.
    intros k u Hk Hu. apply (Hbefore (S k) u); simpl; auto. lia.
Qed.

(** ** add_task, then get_task *)

Lemma filter_none {A : Type} (p : A -> bool) (xs : list A) :
  (forall x, In x xs -> p x = false) -> filter p xs = [].
Proof. intros H. now apply filter_nil_forall. Qed.

(** X1. A task added under an id that the store does not hold yet is
    returned by [get_task] on that id, as it was added: with the title
    given, pending and not notified; [get_task] leaves the file as
    [add_task] wrote it. *)
Theorem add_task_then_get_task (file : content) (ti de : string)
  (du re : option string) (uuid : N) (now : string) :
  ~ In (TaskStorage.new_id uuid) (map id (TaskStorage.decode file)) ->
  let added := run (TaskStorage.add_task ti de du re uuid now) file in
  run (TaskStorage.get_task (id (fst added))) (snd added)
  = (Some (fst added), snd added)
  /\ title (fst added) = ti
  /\ status (fst added) = "pending"
  /\ notified (fst added) = false
  /\ In (fst added) (TaskStorage.decode (snd added)).
Proof.
  intros Hfresh added. unfold added. rewrite run_add_task. cbn [fst snd].
  rewrite run_get_task. cbn [TaskStorage.decode TaskStorage.json_load id].
  rewrite filter_app. cbn [filter id]. rewrite String.eqb_refl.
  rewrite filter_none.
  - repeat split. apply in_or_app. right. now left.
  - intros x Hx. apply String.eqb_neq. intros E. apply Hfresh.
    rewrite <- E. now apply in_map.
Qed.

Lemma add_task_then_get_task_witness :
  fst (run (TaskStorage.get_task "9abcdef0")
           (after (add_call new_c) (Json [task_a; task_b])))
  = Some (task_of new_c).
Proof.
  destruct (add_task_then_get_task (Json [task_a; task_b]) "Task C" ""
              None None c_uuid "2026-02-14T08:00:02+00:00") as (H & _).
  - simpl. intuition discriminate.
  - exact (f_equal fst H).
Defined.

(** ** One resolution of ids for get, update, complete and delete *)

(** X2. [update_task], [complete_task] and [delete_task] resolve an id or
    prefix to the task that [get_task] returns for it: [delete_task]
    returns that task, [update_task] returns it with the fields assigned,
    and each returns [None] exactly when [get_task] does. *)
Theorem one_resolution (file : content) (s : string) (fields : Fields) :
  fst (run (TaskStorage.delete_task s) file)
  = fst (run (TaskStorage.get_task s) file)
  /\ fst (run (TaskStorage.update_task s fields) file)
     = option_map (dict_update fields)
                  (fst (run (TaskStorage.get_task s) file))
  /\ fst (run (TaskStorage.complete_task s) file)
     = option_map (dict_update TaskStorage.completed_fields)
                  (fst (run (TaskStorage.get_task s) file)).
Proof.
  assert (U : forall fs,
             fst (run (TaskStorage.update_task s fs) file)
             = option_map (dict_update fs)
                          (fst (run (TaskStorage.get_task s) file))).
  { intros fs. rewrite run_update_task, get_task_as_find.
    destruct (TaskStorage._find (TaskStorage.decode file) s) as [i|];
      [|reflexivity].
    cbn [fst]. apply nth_error_mutate. }
  split; [|split; [apply U|apply U]].
  rewrite run_delete_task, get_task_as_find.
  destruct (TaskStorage._find (TaskStorage.decode file) s) as [i|];
    [|reflexivity].
  destruct (nth_error (TaskStorage.decode file) i); reflexivity.
Qed.

(** ** delete_task *)

(** X3. When [delete_task] finds its task, the collection it saves is the
    loaded one without the task at the position found, the other tasks
    being kept in their order (so one task less); the task returned is the
    one that stood at that position. *)
Theorem delete_task_removes_found (file : content) (s : string) (i : nat) :
  TaskStorage._find (TaskStorage.decode file) s = Some i ->
  fst (run (TaskStorage.delete_task s) file)
  = nth_error (TaskStorage.decode file) i
  /\ snd (run (TaskStorage.delete_task s) file)
     = Json (firstn i (TaskStorage.decode file)
             ++ skipn (S i) (TaskStorage.decode file))
  /\ S (length (TaskStorage.decode
                  (snd (run (TaskStorage.delete_task s) file))))
     = length (TaskStorage.decode file).
Proof.
  intros H. rewrite run_delete_task, H.
  destruct (_find_valid _ _ _ H) as (t & Ht). rewrite Ht. cbn [fst snd].
  assert (E : Py.remove_first dict_eqb t (TaskStorage.decode file)
              = firstn i (TaskStorage.decode file)
                ++ skipn (S i) (TaskStorage.decode file)).
  { apply remove_first_at; auto.
    - now apply dict_eqb_eq.
    - now apply (_find_first _ _ _ _ H). }
  rewrite E. repeat split.
  cbn [TaskStorage.decode TaskStorage.json_load].
  assert (i < length (TaskStorage.decode file))
    by (apply nth_error_Some; congruence).
  rewrite length_app, length_firstn, length_skipn. lia.
Qed.

Lemma delete_task_removes_found_witness :
  snd (run (TaskStorage.delete_task "abc9") (Json [task_a; task_b]))
  = Json [task_a].
Proof.
  destruct (delete_task_removes_found (Json [task_a; task_b]) "abc9" 1)
    as (_ & H & _).
  - reflexivity.
  - exact H.
Defined.

(** ** Ids that resolve to nothing *)

Lemma get_task_none_find (file : content) (s : string) :
  fst (run (TaskStorage.get_task s) file) = None
  <-> TaskStorage._find (TaskStorage.decode file) s = None.
Proof.
  rewrite get_task_as_find.
  destruct (TaskStorage._find (TaskStorage.decode file) s) as [i|] eqn:E.
  - destruct (_find_valid _ _ _ E) as (t & ->). split; discriminate.
  - tauto.
Qed.

(** X4. When an id or prefix resolves to no task ([get_task] returns
    [None]), [update_task], [complete_task] and [delete_task] return
    [None], write nothing and leave the file as it is. *)
Theorem not_found_writes_nothing (file : content) (s : string)
  (fields : Fields) :
  fst (run (TaskStorage.get_task s) file) = None ->
  run (TaskStorage.update_task s fields) file = (None, file)
  /\ writes (TaskStorage.update_task s fields) file = []
  /\ run (TaskStorage.complete_task s) file = (None, file)
  /\ writes (TaskStorage.complete_task s) file = []
  /\ run (TaskStorage.delete_task s) file = (None, file)
  /\ writes (TaskStorage.delete_task s) file = [].
Proof.
  intros H. apply get_task_none_find in H.
  unfold TaskStorage.complete_task, TaskStorage.update_task,
    TaskStorage.delete_task.
  cbn [TaskStorage._load bind run writes]. rewrite H. repeat split.
Qed.

Lemma not_found_writes_nothing_witness :
  run (TaskStorage.delete_task "abc") (Json [task_a; task_b])
  = (None, Json [task_a; task_b])
  /\ run (TaskStorage.complete_task "nope") (Json [task_a; task_b])
     = (None, Json [task_a; task_b]).
Proof.
  split.
  - destruct (not_found_writes_nothing (Json [task_a; task_b]) "abc"
                no_fields eq_refl) as (_ & _ & _ & _ & H & _).
    exact H.
  - destruct (not_found_writes_nothing (Json [task_a; task_b]) "nope"
                no_fields eq_refl) as (_ & _ & H & _).
    exact H.
Defined.

(** ** delete_task, then get_task *)

Lemma prefix_same_length (p s : string) :
  String.prefix p s = true -> String.length p = String.length s -> p = s.
Proof.
  revert s; induction p as [|a p IH]; intros [|b s]; simpl;
    try discriminate; auto.
  destruct (ascii_dec a b) as [->|]; [|discriminate].
  intros H L. f_equal. apply IH; auto.
Qed.

Lemma NoDup_map_id (tasks : list Task) :
  NoDup (map id tasks) -> NoDup tasks.
Proof.
  induction tasks as [|x r IH]; simpl; intros H; constructor;
    apply NoDup_cons_iff in H; destruct H as [Hx Hr]; auto.
  intros Hin. apply Hx. now apply in_map.
Qed.

Lemma remove_first_gone (t : Task) (tasks : list Task) :
  NoDup tasks -> ~ In t (Py.remove_first dict_eqb t tasks).
Proof.
  induction tasks as [|x r IH]; simpl; [tauto|].
  intros H. apply NoDup_cons_iff in H. destruct H as [Hx Hr].
  destruct (dict_eqb x t) eqn:E.
  - apply dict_eqb_eq in E. now subst.
  - intros [->|Hin]; [|now apply IH].
    rewrite (proj2 (dict_eqb_eq t t) eq_refl) in E. discriminate.
Qed.

(** X5. In a store whose ids are distinct and of one length (as the ids
    that [add_task] draws are), [delete_task] on the id of a stored task
    returns that task and saves the collection without it, after which
    [get_task] on that id returns [None]. *)
Theorem delete_task_then_get_task (file : content) (t : Task) :
  NoDup (map id (TaskStorage.decode file)) ->
  In t (TaskStorage.decode file) ->
  (forall u, In u (TaskStorage.decode file) ->
             String.length (id u) = String.length (id t)) ->
  fst (run (TaskStorage.delete_task (id t)) file) = Some t
  /\ ~ In t (TaskStorage.decode
               (snd (run (TaskStorage.delete_task (id t)) file)))
  /\ fst (run (TaskStorage.get_task (id t))
              (snd (run (TaskStorage.delete_task (id t)) file))) = None.
Proof.
  intros Hnd Hin Hlen.
  assert (G : fst (run (TaskStorage.get_task (id t)) file) = Some t).
  { rewrite run_get_task. cbn [fst].
    destruct (filter (fun x => id x =? id t) (TaskStorage.decode file))
      as [|x r] eqn:E.
    - rewrite filter_nil_forall in E. specialize (E t Hin).
      now rewrite String.eqb_refl in E.
    - assert (Hx : In x (filter (fun x => id x =? id t)
                                 (TaskStorage.decode file)))
        by (rewrite E; now left).
      apply filter_In in Hx. destruct Hx as [Hx Hid].
      apply String.eqb_eq in Hid.
      now rewrite (same_id_same_task _ _ _ Hnd Hx Hin Hid). }
  rewrite get_task_as_find in G. rewrite !run_delete_task.
  destruct (TaskStorage._find (TaskStorage.decode file) (id t)) as [i|];
    [|discriminate].
  rewrite G. cbn [fst snd].
  assert (Hgone : ~ In t (Py.remove_first dict_eqb t
                            (TaskStorage.decode file)))
    by (apply remove_first_gone; now apply NoDup_map_id).
  split; [reflexivity|]. split; [exact Hgone|].
  rewrite run_get_task.
  cbn [fst TaskStorage.decode TaskStorage.json_load].
  assert (Hother : forall u,
             In u (Py.remove_first dict_eqb t (TaskStorage.decode file)) ->
             id u <> id t).
  { intros u Hu E. apply Hgone.
    assert (u = t) as <-; [|exact Hu].
    apply (same_id_same_task _ _ _ Hnd); auto.
    now apply In_remove_first in Hu. }
  rewrite filter_none.
  - destruct (4 <=? String.length (id t))%nat; [|reflexivity].
    rewrite filter_none; [reflexivity|].
    intros u Hu. unfold Py.startswith.
    destruct (String.prefix (id t) (id u)) eqn:P; [|reflexivity].
    exfalso. apply (Hother u Hu). symmetry.
    apply prefix_same_length; auto.
    symmetry. apply Hlen. now apply In_remove_first in Hu.
  - intros u Hu. apply String.eqb_neq. now apply Hother.
Qed.

Lemma delete_task_then_get_task_witness :
  fst (run (TaskStorage.get_task "abc99999")
           (snd (run (TaskStorage.delete_task "abc99999")
                     (Json [task_a; task_b])))) = None.
Proof.
  destruct (delete_task_then_get_task (Json [task_a; task_b]) task_b)
    as (_ & _ & H).
  - repeat constructor; simpl; intuition discriminate.
  - simpl. tauto.
  - intros u [<-|[<-|[]]]; reflexivity.
  - exact H.
Defined.

(** ** complete_task *)

Lemma nth_error_mutate_other {A : Type} (f : A -> A) (i j : nat)
  (xs : list A) :
  j <> i -> nth_error (Py.mutate f i xs) j = nth_error xs j.
Proof.
  revert i j; induction xs as [|x r IH]; intros [|i] [|j] H; simpl; auto;
    try congruence.
Qed.

Lemma map_id_mutate (f : Task -> Task) (i : nat) (tasks : list Task) :
  (forall t, id (f t) = id t) ->
  map id (Py.mutate f i tasks) = map id tasks.
Proof.
  intros H. revert i; induction tasks as [|x r IH]; intros [|i]; simpl;
    auto; now rewrite ?H, ?IH.
Qed.

Lemma mutate_twice {A : Type} (f : A -> A) (i : nat) (xs : list A) :
  (forall x, f (f x) = f x) ->
  Py.mutate f i (Py.mutate f i xs) = Py.mutate f i xs.
Proof.
  intros H. revert i; induction xs as [|x r IH]; intros [|i]; simpl;
    auto; now rewrite ?H, ?IH.
Qed.

(** X6. When [complete_task] finds its task, it returns that task with
    status completed and every other field as stored, and saves a
    collection of the same length in which the tasks at the other
    positions are as they were. *)
Theorem complete_task_sets_status_only (file : content) (s : string)
  (i : nat) (t : Task) :
  TaskStorage._find (TaskStorage.decode file) s = Some i ->
  nth_error (TaskStorage.decode file) i = Some t ->
  let done := mkTask (id t) (title t) (description t) (due_at t)
                     (remind_at t) "completed" (notified t) (created_at t) in
  let saved := TaskStorage.decode
                 (snd (run (TaskStorage.complete_task s) file)) in
  fst (run (TaskStorage.complete_task s) file) = Some done
  /\ writes (TaskStorage.complete_task s) file = [saved]
  /\ nth_error saved i = Some done
  /\ length saved = length (TaskStorage.decode file)
  /\ forall j, j <> i ->
       nth_error saved j = nth_error (TaskStorage.decode file) j.
Proof.
  intros H Ht done saved. unfold saved, TaskStorage.complete_task.
  rewrite run_update_task, H. cbn [fst snd].
  unfold TaskStorage.update_task.
  cbn [TaskStorage._load bind writes]. rewrite H.
  cbn [TaskStorage._save bind writes TaskStorage.decode
       TaskStorage.json_load].
  rewrite nth_error_mutate, Ht, mutate_length.
  repeat split.
  intros j Hj. now apply nth_error_mutate_other.
Qed.

Lemma complete_task_sets_status_only_witness :
  run (TaskStorage.complete_task "abc9") (Json [task_a; task_b])
  = (Some task_b_done, Json [task_a; task_b_done]).
Proof.
  destruct (complete_task_sets_status_only (Json [task_a; task_b]) "abc9"
              1 task_b eq_refl eq_refl) as (H & _).
  apply injective_projections; [exact H|reflexivity].
Defined.

(** X7. Completing a task a second time changes nothing: the file after
    two [complete_task] calls on one id is the file after the first. *)
Theorem complete_task_idempotent (file : content) (s : string) :
  after (call_complete s) (after (call_complete s) file)
  = after (call_complete s) file.
Proof.
  rewrite !after_complete, !after_update.
  destruct (TaskStorage._find (TaskStorage.decode file) s) as [i|] eqn:E.
  - cbn [TaskStorage.decode TaskStorage.json_load].
    rewrite (_find_ids _ (TaskStorage.decode file)), E.
    + now rewrite mutate_twice.
    + now apply map_id_mutate.
  - now rewrite E.
Qed.

(** ** Distinct ids across calls *)

Lemma NoDup_ids_remove_first (t : Task) (tasks : list Task) :
  NoDup (map id tasks) ->
  NoDup (map id (Py.remove_first dict_eqb t tasks)).
Proof.
  induction tasks as [|x r IH]; simpl; auto.
  intros H. apply NoDup_cons_iff in H. destruct H as [Hx Hr].
  destruct (dict_eqb x t); auto.
  simpl. constructor; auto.
  intros Hin. apply Hx.
  apply in_map_iff in Hin. destruct Hin as (u & E & Hu).
  rewrite <- E. apply in_map. now apply In_remove_first in Hu.
Qed.

Lemma NoDup_ids_after (c : call) (file : content) :
  NoDup (map id (TaskStorage.decode file)) ->
  keeps_ids c file ->
  NoDup (map id (TaskStorage.decode (after c file))).
Proof.
  intros Hnd Hk.
  assert (U : forall s fields, set_id fields = None ->
            NoDup (map id (TaskStorage.decode
                             (after (call_update s fields) file)))).
  { intros s fields Hid. rewrite after_update.
    destruct (TaskStorage._find (TaskStorage.decode file) s); auto.
    cbn [TaskStorage.decode TaskStorage.json_load].
    rewrite map_id_mutate; auto.
    intros t. simpl. now rewrite Hid. }
  destruct c as [ti de du re uuid now|s|f now|s fields|s|s|now].
  - change (call_add ti de du re uuid now)
      with (add_call (mkNew ti de du re uuid now)).
    rewrite after_add. cbn [TaskStorage.decode TaskStorage.json_load].
    rewrite map_app. simpl.
    apply NoDup_app; auto.
    + repeat constructor. simpl. tauto.
    + intros x Hx [<-|[]]. now apply Hk.
  - now rewrite after_get.
  - now rewrite after_list.
  - now apply U.
  - rewrite after_complete. now apply U.
  - rewrite after_delete.
    destruct (TaskStorage._find (TaskStorage.decode file) s); auto.
    destruct (nth_error (TaskStorage.decode file) n); auto.
    cbn [TaskStorage.decode TaskStorage.json_load].
    now apply NoDup_ids_remove_first.
  - rewrite after_due_reminders. now rewrite ids_mark_due.
Qed.

(** X8. Distinct ids are an invariant of the store under calls that
    respect ids: through any sequence of calls in which every [add_task]
    draws an id not stored at that time and no [update_task] assigns [id],
    a store whose ids are pairwise distinct keeps them pairwise distinct. *)
Theorem ids_stay_distinct (cs : list call) (file : content) :
  NoDup (map id (TaskStorage.decode file)) ->
  keep_ids_all cs file ->
  NoDup (map id (TaskStorage.decode (after_all cs file))).
Proof.
  unfold after_all.
  revert file; induction cs as [|c r IH]; intros file Hnd Hk; simpl; auto.
  destruct Hk as [Hc Hr]. apply IH; auto. now apply NoDup_ids_after.
Qed.

Lemma ids_stay_distinct_witness :
  NoDup (map id (TaskStorage.decode
                   (after_all [add_call new_a; call_complete "1234";
                               add_call new_c; call_delete "12345678";
                               call_due_reminders "2026-02-14T08:30:00"]
                              TaskStorage.fresh))).
Proof.
  apply ids_stay_distinct.
  - constructor.
  - simpl. intuition discriminate.
Defined.

(** ** The filters of list_tasks together *)

Lemma filter_filter_implied {A : Type} (p q : A -> bool) (xs : list A) :
  (forall x, p x = true -> q x = true) ->
  filter p (filter q xs) = filter p xs.
Proof.
  intros H. induction xs as [|x r IH]; simpl; [reflexivity|].
  destruct (q x) eqn:Q; simpl.
  - now rewrite IH.
  - destruct (p x) eqn:P; [|exact IH].
    apply H in P. congruence.
Qed.

Lemma run_list_pending (now : string) (file : content) :
  run (TaskStorage.list_tasks "pending" now) file
  = (filter (fun t => status t =? "pending") (TaskStorage.decode file),
     file).
Proof. reflexivity. Qed.

Lemma run_list_completed (now : string) (file : content) :
  run (TaskStorage.list_tasks "completed" now) file
  = (filter (fun t => status t =? "completed") (TaskStorage.decode file),
     file).
Proof. reflexivity. Qed.

(** X9. The overdue list is drawn from the pending list: it is the pending
    list restricted to the tasks that are overdue, so every overdue task is
    a pending task and the two lists agree on order. *)
Theorem overdue_within_pending (file : content) (now now' : string) :
  fst (run (TaskStorage.list_tasks "overdue" now) file)
  = filter (TaskStorage.is_overdue now)
           (fst (run (TaskStorage.list_tasks "pending" now') file))
  /\ forall t,
       In t (fst (run (TaskStorage.list_tasks "overdue" now) file)) ->
       In t (fst (run (TaskStorage.list_tasks "pending" now') file)).
Proof.
  rewrite run_list_overdue, run_list_pending. cbn [fst].
  assert (E : filter (TaskStorage.is_overdue now)
                (filter (fun t => status t =? "pending")
                        (TaskStorage.decode file))
              = filter (TaskStorage.is_overdue now)
                       (TaskStorage.decode file)).
  { apply filter_filter_implied. intros x Hx.
    unfold TaskStorage.is_overdue in Hx.
    now apply andb_true_iff in Hx. }
  split; [now rewrite E|].
  intros t Ht. rewrite <- E in Ht. now apply filter_In in Ht.
Qed.

(** ** The two statuses *)

Lemma length_two_filters {A : Type} (p q : A -> bool) (xs : list A) :
  Forall (fun x => (p x = true /\ q x = false)
                   \/ (p x = false /\ q x = true)) xs ->
  length xs = length (filter p xs) + length (filter q xs).
Proof.
  induction 1 as [|x r Hx _ IH]; simpl; [reflexivity|].
  destruct Hx as [[-> ->]|[-> ->]]; simpl; lia.
Qed.

Lemma two_statuses_after (c : call) (file : content) :
  tool_call c = true ->
  two_statuses (TaskStorage.decode file) ->
  two_statuses (TaskStorage.decode (after c file)).
Proof.
  unfold two_statuses. intros Hc H.
  destruct c as [ti de du re uuid now|s|f now|s fields|s|s|now];
    try discriminate.
  - change (call_add ti de du re uuid now)
      with (add_call (mkNew ti de du re uuid now)).
    rewrite after_add. cbn [TaskStorage.decode TaskStorage.json_load].
    apply Forall_app. split; auto.
  - now rewrite after_get.
  - now rewrite after_list.
  - rewrite after_complete, after_update.
    destruct (TaskStorage._find (TaskStorage.decode file) s); auto.
    cbn [TaskStorage.decode TaskStorage.json_load].
    apply Forall_forall. intros x Hx.
    apply In_mutate in Hx. destruct Hx as [Hx|(y & _ & ->)].
    + rewrite Forall_forall in H. auto.
    + right. reflexivity.
  - rewrite after_delete.
    destruct (TaskStorage._find (TaskStorage.decode file) s); auto.
    destruct (nth_error (TaskStorage.decode file) n); auto.
    cbn [TaskStorage.decode TaskStorage.json_load].
    apply Forall_forall. intros x Hx. apply In_remove_first in Hx.
    rewrite Forall_forall in H. auto.
  - rewrite after_due_reminders. apply Forall_forall. intros x Hx.
    apply in_map_iff in Hx. destruct Hx as (y & <- & Hy).
    rewrite Forall_forall in H. specialize (H y Hy).
    unfold mark_due. now destruct (TaskStorage.is_due now y).
Qed.

(** X10. After any sequence of the calls that the tools make (add, get,
    list, complete, delete, due reminders) on a new store, every task is
    pending or completed, and the pending list and the completed list
    split the whole collection: their lengths add up to the length of
    [list_tasks("all")]. *)
Theorem pending_and_completed_split (cs : list call) (now : string) :
  forallb tool_call cs = true ->
  two_statuses (TaskStorage.decode (after_all cs TaskStorage.fresh))
  /\ length (fst (run (TaskStorage.list_tasks "all" now)
                      (after_all cs TaskStorage.fresh)))
     = length (fst (run (TaskStorage.list_tasks "pending" now)
                        (after_all cs TaskStorage.fresh)))
       + length (fst (run (TaskStorage.list_tasks "completed" now)
                          (after_all cs TaskStorage.fresh))).
Proof.
  intros Hcs.
  assert (H : two_statuses
                (TaskStorage.decode (after_all cs TaskStorage.fresh))).
  { unfold after_all.
    assert (H0 : two_statuses (TaskStorage.decode TaskStorage.fresh))
      by constructor.
    revert Hcs H0. generalize TaskStorage.fresh.
    induction cs as [|c r IH]; intros file Hcs H0; simpl; auto.
    simpl in Hcs. apply andb_true_iff in Hcs. destruct Hcs as [Hc Hr].
    apply IH; auto. now apply two_statuses_after. }
  split; [exact H|].
  rewrite run_list_all, run_list_pending, run_list_completed. cbn [fst].
  apply length_two_filters.
  eapply Forall_impl; [|exact H].
  intros t [E|E]; rewrite E; [left|right]; split; reflexivity.
Qed.

Lemma pending_and_completed_split_witness :
  length (fst (run (TaskStorage.list_tasks "all" "2026")
                   (after_all [add_call new_a; add_call new_c;
                               call_complete "9abc"] TaskStorage.fresh)))
  = length (fst (run (TaskStorage.list_tasks "pending" "2026")
                     (after_all [add_call new_a; add_call new_c;
                                 call_complete "9abc"] TaskStorage.fresh)))
    + length (fst (run (TaskStorage.list_tasks "completed" "2026")
                       (after_all [add_call new_a; add_call new_c;
                                   call_complete "9abc"]
                                  TaskStorage.fresh))).
Proof.
  apply (pending_and_completed_split
           [add_call new_a; add_call new_c; call_complete "9abc"] "2026").
  reflexivity.
Defined.

(** ** Any number of polls *)

Lemma NoDup_map_filter {A B : Type} (g : A -> B) (p : A -> bool)
  (xs : list A) :
  NoDup (map g xs) -> NoDup (map g (filter p xs)).
Proof.
  induction xs as [|x r IH]; simpl; auto.
  intros H. apply NoDup_cons_iff in H. destruct H as [Hx Hr].
  destruct (p x); simpl; auto.
  constructor; auto.
  intros Hin. apply Hx.
  apply in_map_iff in Hin. destruct Hin as (y & E & Hy).
  rewrite <- E. apply in_map. now apply filter_In in Hy.
Qed.

Lemma ids_mark_notified (tasks : list Task) :
  map id (map mark_notified tasks) = map id tasks.
Proof. rewrite map_map. reflexivity. Qed.

(** What any later poll returns was stored, not yet notified, before. *)
Lemma poll_from_unnotified (nows : list string) (file : content) (x : Task) :
  In x (concat (poll nows file)) ->
  exists t, In t (TaskStorage.decode file)
            /\ id t = id x /\ notified t = false.
Proof.
  revert file; induction nows as [|now r IH]; intros file;
    cbn [poll concat]; [intros []|].
  intros H. apply in_app_or in H. destruct H as [H|H].
  - rewrite run_get_due_reminders in H. cbn [fst] in H.
    apply in_map_iff in H. destruct H as (t & <- & Ht).
    apply filter_In in Ht. destruct Ht as [Ht Hd].
    exists t. repeat split; auto. now apply is_due_not_notified in Hd.
  - destruct (IH _ H) as (t & Ht & E & Hn).
    rewrite decode_after_due in Ht.
    apply in_map_iff in Ht. destruct Ht as (t0 & <- & Ht0).
    exists t0. rewrite id_mark_due in E. repeat split; auto.
    unfold mark_due in Hn.
    destruct (TaskStorage.is_due now t0); [discriminate|exact Hn].
Qed.

(** X11. In a store whose ids are distinct, whatever the number of
    [get_due_reminders] calls and their clock readings, no id is reported
    twice: the ids of all the tasks returned, taken over all the calls,
    are pairwise distinct. *)
Theorem polls_report_each_id_once (nows : list string) (file : content) :
  NoDup (map id (TaskStorage.decode file)) ->
  NoDup (map id (concat (poll nows file))).
Proof.
  revert file; induction nows as [|now r IH]; intros file Hnd;
    cbn [poll concat]; [constructor|].
  rewrite map_app. apply NoDup_app.
  - rewrite run_get_due_reminders. cbn [fst].
    rewrite ids_mark_notified. now apply NoDup_map_filter.
  - apply IH. rewrite decode_after_due, ids_mark_due. exact Hnd.
  - intros i Hi Hi'.
    apply in_map_iff in Hi. destruct Hi as (x & <- & Hx).
    apply in_map_iff in Hi'. destruct Hi' as (y & E & Hy).
    rewrite run_get_due_reminders in Hx. cbn [fst] in Hx.
    apply in_map_iff in Hx. destruct Hx as (x0 & <- & Hx0).
    apply filter_In in Hx0. destruct Hx0 as [Hx0 Hd].
    destruct (poll_from_unnotified _ _ _ Hy) as (t & Ht & Et & Hn).
    rewrite decode_after_due in Ht.
    apply in_map_iff in Ht. destruct Ht as (t0 & <- & Ht0).
    assert (t0 = x0) as ->.
    { apply (same_id_same_task _ _ _ Hnd Ht0 Hx0).
      rewrite id_mark_due in Et. simpl in E. congruence. }
    unfold mark_due in Hn. rewrite Hd in Hn. discriminate.
Qed.

Lemma polls_report_each_id_once_witness :
  NoDup (map id (concat (poll ["2019"; "2026"; "2026"; "2027"]
                              (Json [reminder; task_a; task_b])))).
Proof.
  apply polls_report_each_id_once.
  repeat constructor; simpl; intuition discriminate.
Defined.

(** A poll before the reminder time leaves the task as it is. *)
Lemma not_due_stays (now : string) (file : content) (t : Task) :
  TaskStorage.is_due now t = false ->
  In t (TaskStorage.decode file) ->
  In t (TaskStorage.decode
          (snd (run (TaskStorage.get_due_reminders now) file))).
Proof.
  intros Hd Hin. rewrite decode_after_due. apply in_map_iff.
  exists t. split; [|exact Hin]. unfold mark_due. now rewrite Hd.
Qed.

(** Once no task equal to [t] is stored, no poll returns [t] as marked. *)
Lemma poll_never_absent (nows : list string) (file : content) (t : Task)
  (due : list Task) :
  notified t = false ->
  ~ In t (TaskStorage.decode file) ->
  In due (poll nows file) -> ~ In (mark_notified t) due.
Proof.
  intros Hn. revert file; induction nows as [|now r IH]; intros file Hout;
    cbn [poll In]; [intros []|].
  intros [<-|H].
  - rewrite run_get_due_reminders. cbn [fst]. intros Hin.
    apply in_map_iff in Hin. destruct Hin as (x & E & Hx).
    apply filter_In in Hx. destruct Hx as [Hx Hd].
    apply mark_notified_inj in E.
    + subst. contradiction.
    + rewrite Hn. now apply is_due_not_notified in Hd.
  - apply (IH (snd (run (TaskStorage.get_due_reminders now) file)));
      [|exact H].
    rewrite decode_after_due. intros Hin.
    apply in_map_iff in Hin. destruct Hin as (x & E & Hx).
    unfold mark_due in E. destruct (TaskStorage.is_due now x).
    + rewrite <- E in Hn. discriminate.
    + subst. contradiction.
Qed.

(** X12. A stored task that is pending, not notified and has a reminder
    time is reported by the first [get_due_reminders] call whose clock
    reading is not before that time, and by no other call: not by the
    earlier calls, which leave it as it is, and not by any later one. *)
Theorem reminder_fires_at_first_poll_after (before later : list string)
  (now r : string) (file : content) (t : Task) :
  In t (TaskStorage.decode file) ->
  status t = "pending" -> notified t = false ->
  remind_at t = Some r -> r <> "" ->
  (forall n, In n before -> (r <=? n) = false) ->
  (r <=? now) = true ->
  exists early due late,
    poll (before ++ now :: later) file = early ++ due :: late
    /\ length early = length before
    /\ (forall l, In l early -> ~ In (mark_notified t) l)
    /\ In (mark_notified t) due
    /\ (forall l, In l late -> ~ In (mark_notified t) l).
Proof.
  intros Hin Hs Hn Hr Hne Hb Hnow.
  revert file Hin Hb; induction before as [|n b IH]; intros file Hin Hb.
  - exists [], (fst (run (TaskStorage.get_due_reminders now) file)),
      (poll later (snd (run (TaskStorage.get_due_reminders now) file))).
    assert (Hd : TaskStorage.is_due now t = true).
    { apply is_due_iff. repeat split; auto. exists r. auto. }
    split; [reflexivity|]. split; [reflexivity|].
    split; [intros l []|]. split.
    + rewrite run_get_due_reminders. cbn [fst].
      apply in_map, filter_In. auto.
    + intros l Hl.
      apply (poll_never_absent later
               (snd (run (TaskStorage.get_due_reminders now) file))
               t l Hn); auto.
      rewrite decode_after_due. intros H.
      apply in_map_iff in H. destruct H as (x & E & Hx).
      unfold mark_due in E. destruct (TaskStorage.is_due now x) eqn:Dx.
      * rewrite <- E in Hn. discriminate.
      * congruence.
  - assert (Hd : TaskStorage.is_due n t = false).
    { unfold TaskStorage.is_due. rewrite Hr, (Hb n) by now left.
      now rewrite andb_false_r, andb_false_r. }
    destruct (IH (snd (run (TaskStorage.get_due_reminders n) file)))
      as (early & due & late & E & L & He & Hdue & Hl).
    + now apply not_due_stays.
    + intros m Hm. apply Hb. now right.
    + exists (fst (run (TaskStorage.get_due_reminders n) file) :: early),
        due, late.
      cbn [app poll]. rewrite E.
      split; [reflexivity|]. split; [simpl; lia|].
      split; [|split; [exact Hdue|exact Hl]].
      intros l [<-|Hl']; [|now apply He].
      rewrite run_get_due_reminders. cbn [fst]. intros H.
      apply in_map_iff in H. destruct H as (x & Ex & Hx).
      apply filter_In in Hx. destruct Hx as [Hx Hdx].
      apply mark_notified_inj in Ex.
      * subst. congruence.
      * rewrite Hn. now apply is_due_not_notified in Hdx.
Qed.

Lemma reminder_fires_at_first_poll_after_witness :
  exists early due late,
    poll (["2019-12-31T23:59:00+00:00"] ++ "2020-01-01T00:00:30+00:00"
          :: ["2020-01-01T00:01:30+00:00"]) (Json [task_a; reminder])
    = early ++ due :: late
    /\ length early = 1
    /\ (forall l, In l early -> ~ In past_reminder l)
    /\ In past_reminder due
    /\ (forall l, In l late -> ~ In past_reminder l).
Proof.
  apply (reminder_fires_at_first_poll_after
           ["2019-12-31T23:59:00+00:00"] ["2020-01-01T00:01:30+00:00"]
           "2020-01-01T00:00:30+00:00" "2020-01-01T00:00:00"
           (Json [task_a; reminder]) reminder); try reflexivity.
  - simpl. tauto.
  - discriminate.
  - intros n [<-|[]]. reflexivity.
Defined.

(** ** What get_due_reminders leaves alone *)

Lemma mark_notified_mark_due (now : string) (t : Task) :
  mark_notified (mark_due now t) = mark_notified t.
Proof. unfold mark_due. now destruct (TaskStorage.is_due now t). Qed.

(** X13. [get_due_reminders] changes nothing but notified flags, and those
    only from false to true: the collection it leaves has the same number
    of tasks in the same order, each with its id, title, description, due
    time, reminder time, status and creation time as before, and a task
    that was notified still is. *)
Theorem get_due_reminders_touches_notified_only (file : content)
  (now : string) :
  Forall2 (fun t t' =>
             id t' = id t /\ title t' = title t
             /\ description t' = description t /\ due_at t' = due_at t
             /\ remind_at t' = remind_at t /\ status t' = status t
             /\ created_at t' = created_at t
             /\ (notified t = true -> notified t' = true)
             /\ (notified t' = true ->
                 notified t = true \/ TaskStorage.is_due now t = true))
          (TaskStorage.decode file)
          (TaskStorage.decode
             (snd (run (TaskStorage.get_due_reminders now) file))).
Proof.
  rewrite decode_after_due.
  induction (TaskStorage.decode file) as [|t r IH]; simpl; constructor; auto.
  unfold mark_due. destruct (TaskStorage.is_due now t); simpl; tauto.
Qed.

(** ** Two callers of add_task on one file *)

(** X14. [add_task] holds no lock between its [_load] and its [_save]:
    when two callers run it on one file in the order load, load, save,
    save, each is returned the task it built, but the file holds only the
    former collection and the second caller's task; the first caller's
    task is lost. *)
Theorem concurrent_add_task_loses_one (file : content) (n1 n2 : new_task) :
  interleave [First; Second; First; Second]
    (TaskStorage.add_task (n_title n1) (n_description n1) (n_due_at n1)
                          (n_remind_at n1) (n_uuid n1) (n_now n1))
    (TaskStorage.add_task (n_title n2) (n_description n2) (n_due_at n2)
                          (n_remind_at n2) (n_uuid n2) (n_now n2))
    file
  = (Ret (task_of n1), Ret (task_of n2),
     Json (TaskStorage.decode file ++ [task_of n2]))
  /\ (~ In (task_of n1) (TaskStorage.decode file) ->
      task_of n1 <> task_of n2 ->
      ~ In (task_of n1) (TaskStorage.decode file ++ [task_of n2])).
Proof.
  split; [reflexivity|].
  intros H1 H2 Hin. apply in_app_or in Hin.
  destruct Hin as [Hin|[E|[]]]; auto.
Qed.

Lemma concurrent_add_task_loses_one_witness :
  ~ In (task_of new_a) (TaskStorage.decode TaskStorage.fresh ++ [task_of new_c]).
Proof.
  apply (proj2 (concurrent_add_task_loses_one TaskStorage.fresh new_a new_c)).
  - simpl. tauto.
  - discriminate.
Defined.

(** ** strip *)

Lemma lstrip_idem (s : string) : Str.lstrip (Str.lstrip s) = Str.lstrip s.
Proof.
  induction s as [|c r IH]; simpl; [reflexivity|].
  destruct (Str.is_space c) eqn:E; [exact IH|]. simpl. now rewrite E.
Qed.

Lemma lstrip_suffix (s : string) :
  exists pre, s = (pre ++ Str.lstrip s)%string.
Proof.
  induction s as [|c r (pre & IH)]; simpl; [now exists ""|].
  destruct (Str.is_space c).
  - exists (String c pre). simpl. now rewrite <- IH.
  - now exists "".
Qed.

(** A string that [lstrip] leaves alone is empty or starts with a
    character that is not a space. *)
Lemma lstrip_fixed_head (c : ascii) (r : string) :
  Str.lstrip (String c r) = String c r -> Str.is_space c = false.
Proof.
  simpl. destruct (Str.is_space c); [|reflexivity].
  intros H. destruct (lstrip_suffix r) as (pre & E).
  rewrite H in E. apply (f_equal String.length) in E.
  rewrite str_app_length in E. simpl in E. lia.
Qed.

Lemma lstrip_head (c : ascii) (r : string) :
  Str.is_space c = false -> Str.lstrip (String c r) = String c r.
Proof. intros H. simpl. now rewrite H. Qed.

Lemma rstrip_idem (s : string) : Str.rstrip (Str.rstrip s) = Str.rstrip s.
Proof.
  induction s as [|c r IH]; simpl; [reflexivity|].
  destruct (Str.rstrip r) as [|c' r'] eqn:E.
  - destruct (Str.is_space c) eqn:S; simpl; [reflexivity|now rewrite S].
  - simpl in *. now rewrite IH.
Qed.

Lemma rstrip_app_nonempty (a b : string) :
  Str.rstrip b <> "" -> Str.rstrip (a ++ b) = (a ++ Str.rstrip b)%string.
Proof.
  intros H. induction a as [|c a IH]; simpl; [reflexivity|].
  rewrite IH.
  destruct (a ++ Str.rstrip b)%string as [|x y] eqn:E; [|reflexivity].
  destruct a; simpl in E; [contradiction|discriminate].
Qed.

Lemma rstrip_app_empty (a b : string) :
  Str.rstrip b = "" -> Str.rstrip (a ++ b) = Str.rstrip a.
Proof.
  intros H. induction a as [|c a IH]; simpl; [exact H|]. now rewrite IH.
Qed.

Lemma rstrip_length (s : string) :
  String.length (Str.rstrip s) <= String.length s.
Proof.
  induction s as [|c r IH]; simpl; [lia|].
  destruct (Str.rstrip r) as [|c' r']; simpl in *.
  - destruct (Str.is_space c); simpl; lia.
  - lia.
Qed.

(** An end that [rstrip] leaves alone protects what stands before it. *)
Lemma rstrip_fixed_app (a b : string) :
  b <> "" -> Str.rstrip b = b -> Str.rstrip (a ++ b) = (a ++ b)%string.
Proof.
  intros Hb E. rewrite rstrip_app_nonempty; rewrite E; auto.
Qed.

Lemma rstrip_fixed_end (a b : string) :
  b <> "" -> Str.rstrip (a ++ b) = (a ++ b)%string -> Str.rstrip b = b.
Proof.
  intros Hb E.
  destruct (Str.rstrip b) as [|c r] eqn:R.
  - rewrite rstrip_app_empty in E by exact R.
    pose proof (rstrip_length a) as L. rewrite E, str_app_length in L.
    destruct b; [contradiction|simpl in L; lia].
  - rewrite rstrip_app_nonempty in E by (rewrite R; discriminate).
    rewrite R in E.
    apply str_app_inj in E; [tauto|reflexivity].
Qed.

Lemma rstrip_lstrip (s : string) :
  Str.rstrip s = s -> Str.rstrip (Str.lstrip s) = Str.lstrip s.
Proof.
  intros H. destruct (lstrip_suffix s) as (pre & E).
  destruct (Str.lstrip s) as [|c r] eqn:L; [reflexivity|].
  apply (rstrip_fixed_end pre); [discriminate|].
  now rewrite <- E.
Qed.

Lemma lstrip_strip (s : string) : Str.lstrip (Str.strip s) = Str.strip s.
Proof. apply lstrip_idem. Qed.

Lemma rstrip_strip (s : string) : Str.rstrip (Str.strip s) = Str.strip s.
Proof. apply rstrip_lstrip, rstrip_idem. Qed.

Lemma strip_fixed (s : string) :
  Str.lstrip s = s -> Str.rstrip s = s -> Str.strip s = s.
Proof. unfold Str.strip. now intros H ->. Qed.

Lemma strip_idem (s : string) : Str.strip (Str.strip s) = Str.strip s.
Proof. apply strip_fixed; [apply lstrip_strip|apply rstrip_strip]. Qed.

Lemma contains_app (c : ascii) (a b : string) :
  Str.contains c (a ++ b) = Str.contains c a || Str.contains c b.
Proof.
  induction a as [|x a IH]; simpl; [reflexivity|].
  now rewrite IH, orb_assoc.
Qed.

Lemma split_once_spec (c : ascii) (s : string) :
  Str.contains c s = true ->
  s = (fst (Str.split_once c s) ++ String c (snd (Str.split_once c s)))%string
  /\ Str.contains c (fst (Str.split_once c s)) = false.
Proof.
  induction s as [|a r IH]; simpl; [discriminate|].
  destruct (Ascii.eqb a c) eqn:E; simpl.
  - apply Ascii.eqb_eq in E. subst. auto.
  - intros H. destruct (IH H) as [E1 E2].
    destruct (Str.split_once c r) as [x y]. simpl in *.
    rewrite E. split; [now rewrite <- E1|exact E2].
Qed.

(** ** _normalize_datetime *)

Lemma normalize_stripped (w : string) :
  Str.strip w = w ->
  InteractiveCLI._normalize_datetime w
  = if Str.contains "T" w then w
    else if Str.contains " " w then
      (fst (Str.split_once " " w) ++ "T"
       ++ (if (String.length (snd (Str.split_once " " w)) =? 5)%nat
           then snd (Str.split_once " " w) ++ ":00"
           else snd (Str.split_once " " w)))%string
    else (w ++ "T00:00:00")%string.
Proof.
  intros H. unfold InteractiveCLI._normalize_datetime. rewrite H.
  now destruct (Str.split_once " " w).
Qed.

Lemma normalize_of_strip (v : string) :
  InteractiveCLI._normalize_datetime v
  = InteractiveCLI._normalize_datetime (Str.strip v).
Proof.
  unfold InteractiveCLI._normalize_datetime. now rewrite strip_idem.
Qed.

Lemma lstrip_app_head (a b : string) :
  a <> "" -> Str.lstrip a = a -> Str.lstrip (a ++ b) = (a ++ b)%string.
Proof.
  destruct a as [|c a]; [contradiction|]. intros _ H.
  apply lstrip_fixed_head in H. simpl. now rewrite H.
Qed.

(** X15. [_normalize_datetime] always returns a string that contains a
    ["T"] and has no whitespace at either end, and normalising a second
    time changes nothing. *)
Theorem normalize_datetime_idempotent (v : string) :
  Str.contains "T" (InteractiveCLI._normalize_datetime v) = true
  /\ Str.strip (InteractiveCLI._normalize_datetime v)
     = InteractiveCLI._normalize_datetime v
  /\ InteractiveCLI._normalize_datetime (InteractiveCLI._normalize_datetime v)
     = InteractiveCLI._normalize_datetime v.
Proof.
  assert (K : Str.contains "T" (InteractiveCLI._normalize_datetime v) = true
              /\ Str.strip (InteractiveCLI._normalize_datetime v)
                 = InteractiveCLI._normalize_datetime v).
  { rewrite normalize_of_strip.
    pose proof (lstrip_strip v) as L. pose proof (rstrip_strip v) as R.
    rewrite (normalize_stripped _ (strip_idem v)).
    set (w := Str.strip v) in *.
    destruct (Str.contains "T" w) eqn:T.
    { split; [exact T|now apply strip_fixed]. }
    destruct (Str.contains " " w) eqn:S.
    - destruct (split_once_spec " " w S) as [E _].
      set (d := fst (Str.split_once " " w)) in *.
      set (tp := snd (Str.split_once " " w)) in *.
      assert (Hd : d <> "" /\ Str.lstrip d = d).
      { destruct d as [|c d']; simpl in E.
        - rewrite E in L. apply lstrip_fixed_head in L. discriminate.
        - split; [discriminate|]. apply lstrip_head.
          rewrite E in L. now apply lstrip_fixed_head in L. }
      split.
      + rewrite !contains_app. simpl. now rewrite orb_true_r.
      + apply strip_fixed.
        * now apply lstrip_app_head.
        * destruct (String.length tp =? 5)%nat.
          -- rewrite <- !str_app_assoc.
             apply rstrip_fixed_app; [discriminate|reflexivity].
          -- destruct tp as [|c tp'].
             ++ apply rstrip_fixed_app; [discriminate|reflexivity].
             ++ rewrite <- str_app_assoc.
                apply rstrip_fixed_app; [discriminate|].
                apply (rstrip_fixed_end (d ++ " ")); [discriminate|].
                rewrite str_app_assoc. simpl. now rewrite <- E.
    - split.
      + rewrite contains_app. simpl. now rewrite orb_true_r.
      + apply strip_fixed.
        * destruct w as [|c w']; [reflexivity|].
          now apply lstrip_app_head.
        * apply rstrip_fixed_app; [discriminate|reflexivity]. }
  destruct K as [K1 K2]. split; [exact K1|]. split; [exact K2|].
  rewrite (normalize_stripped _ K2). now rewrite K1.
Qed.

Lemma plain_no_T (s : string) :
  Str.plain s = true -> Str.contains "T" s = false.
Proof.
  induction s as [|c r IH]; simpl; [reflexivity|].
  rewrite !andb_true_iff, !negb_true_iff. intros [[_ H] Hr].
  now rewrite H, IH.
Qed.

Lemma plain_no_space (s : string) :
  Str.plain s = true -> Str.contains " " s = false.
Proof.
  induction s as [|c r IH]; simpl; [reflexivity|].
  rewrite !andb_true_iff, !negb_true_iff. intros [[H _] Hr].
  rewrite IH by exact Hr.
  destruct (Ascii.eqb c " ") eqn:E; [|reflexivity].
  apply Ascii.eqb_eq in E. subst. discriminate.
Qed.

Lemma plain_rstrip (s : string) : Str.plain s = true -> Str.rstrip s = s.
Proof.
  induction s as [|c r IH]; simpl; [reflexivity|].
  rewrite !andb_true_iff, !negb_true_iff. intros [[H _] Hr].
  rewrite IH by exact Hr. rewrite H. now destruct r.
Qed.

Lemma plain_lstrip (s : string) : Str.plain s = true -> Str.lstrip s = s.
Proof.
  destruct s as [|c r]; simpl; [reflexivity|].
  rewrite !andb_true_iff, !negb_true_iff. now intros [[-> _] _].
Qed.

Lemma split_once_plain (d tm : string) :
  Str.plain d = true ->
  Str.split_once " " (d ++ String " " tm) = (d, tm).
Proof.
  induction d as [|c r IH]; simpl; [reflexivity|].
  rewrite !andb_true_iff, !negb_true_iff. intros [[H _] Hr].
  rewrite IH by exact Hr.
  destruct (Ascii.eqb c " ") eqn:E; [|reflexivity].
  apply Ascii.eqb_eq in E. subst. discriminate.
Qed.

(** X16. On a date and a time without whitespace or ["T"], the date not
    empty and the time of five characters (["YYYY-MM-DD HH:MM"]),
    [_normalize_datetime] returns the date, ["T"], the time and [":00"];
    on such a date alone it returns the date followed by ["T00:00:00"]. *)
Theorem normalize_datetime_date_time (d tm : string) :
  Str.plain d = true -> d <> "" ->
  Str.plain tm = true -> String.length tm = 5 ->
  InteractiveCLI._normalize_datetime (d ++ " " ++ tm)
  = (d ++ "T" ++ tm ++ ":00")%string
  /\ InteractiveCLI._normalize_datetime d = (d ++ "T00:00:00")%string.
Proof.
  intros Hd Hne Htm Hlen. split.
  - assert (tm <> "") by (destruct tm; [discriminate|discriminate]).
    rewrite normalize_stripped.
    + rewrite !contains_app, (plain_no_T d Hd), (plain_no_T tm Htm).
      simpl. rewrite orb_true_r.
      rewrite split_once_plain by exact Hd. cbn [fst snd].
      now rewrite Hlen.
    + apply strip_fixed.
      * apply lstrip_app_head; [exact Hne|now apply plain_lstrip].
      * change (d ++ " " ++ tm)%string with (d ++ (" " ++ tm))%string.
        rewrite <- str_app_assoc.
        apply rstrip_fixed_app; [assumption|now apply plain_rstrip].
  - rewrite normalize_stripped.
    + now rewrite (plain_no_T d Hd), (plain_no_space d Hd).
    + apply strip_fixed; [now apply plain_lstrip|now apply plain_rstrip].
Qed.

Lemma normalize_datetime_date_time_witness :
  InteractiveCLI._normalize_datetime "2026-03-01 14:30"
  = "2026-03-01T14:30:00"
  /\ InteractiveCLI._normalize_datetime "2026-03-01" = "2026-03-01T00:00:00".
Proof.
  apply (normalize_datetime_date_time "2026-03-01" "14:30");
    try reflexivity.
  discriminate.
Defined.

(** ** _parse_args_with_flags *)

Lemma parse_loop_positional (flags pre rest title_parts : list string)
  (opts : Str.dict) :
  (forall x, In x pre -> existsb (String.eqb x) flags = false) ->
  InteractiveCLI.parse_loop flags (pre ++ rest) title_parts opts
  = InteractiveCLI.parse_loop flags rest (title_parts ++ pre) opts.
Proof.
  revert title_parts; induction pre as [|x pre IH]; intros title_parts H;
    simpl.
  - now rewrite app_nil_r.
  - rewrite (H x) by now left. rewrite IH by (intros y Hy; apply H; now right).
    now rewrite <- app_assoc.
Qed.

Lemma is_flag_iff (flags : list string) (x : string) :
  existsb (String.eqb x) flags = true <-> In x flags.
Proof.
  rewrite existsb_exists. split.
  - intros (y & Hy & E). apply String.eqb_eq in E. now subst.
  - intros H. exists x. split; [exact H|apply String.eqb_refl].
Qed.

(** X17. Tokens that are not flags are joined into the title wherever they
    stand, before or after a flag and its value; a flag takes the token
    that follows it as its value, whatever that token is; a flag that ends
    the line without a value is dropped. *)
Theorem parse_args_title_around_flag (flags pre post : list string)
  (f v : string) :
  In f flags ->
  (forall x, In x pre -> ~ In x flags) ->
  (forall x, In x post -> ~ In x flags) ->
  InteractiveCLI._parse_args_with_flags (pre ++ f :: v :: post) flags
  = (Str.join " " (pre ++ post), [(f, v)])
  /\ InteractiveCLI._parse_args_with_flags pre flags
     = (Str.join " " pre, [])
  /\ InteractiveCLI._parse_args_with_flags (pre ++ [f]) flags
     = (Str.join " " pre, []).
Proof.
  intros Hf Hpre Hpost.
  assert (Npre : forall x, In x pre -> existsb (String.eqb x) flags = false).
  { intros x Hx. destruct (existsb (String.eqb x) flags) eqn:E; auto.
    apply is_flag_iff in E. now apply Hpre in Hx. }
  assert (Npost : forall x, In x post ->
                            existsb (String.eqb x) flags = false).
  { intros x Hx. destruct (existsb (String.eqb x) flags) eqn:E; auto.
    apply is_flag_iff in E. now apply Hpost in Hx. }
  apply is_flag_iff in Hf.
  unfold InteractiveCLI._parse_args_with_flags.
  repeat split.
  - rewrite parse_loop_positional by exact Npre. simpl. rewrite Hf.
    rewrite <- (app_nil_r post) at 1.
    rewrite parse_loop_positional by exact Npost. reflexivity.
  - rewrite <- (app_nil_r pre) at 1.
    rewrite parse_loop_positional by exact Npre. reflexivity.
  - rewrite parse_loop_positional by exact Npre. simpl. now rewrite Hf.
Qed.

Lemma parse_args_title_around_flag_witness :
  InteractiveCLI._parse_args_with_flags
    (["Buy"] ++ "--desc" :: "--due" :: ["groceries"])
    ["--desc"; "--due"; "--remind"]
  = ("Buy groceries", [("--desc", "--due")]).
Proof.
  destruct (parse_args_title_around_flag ["--desc"; "--due"; "--remind"]
              ["Buy"] ["groceries"] "--desc" "--due") as (H & _).
  - simpl. tauto.
  - intros x [<-|[]]. simpl. intuition discriminate.
  - intros x [<-|[]]. simpl. intuition discriminate.
  - exact H.
Defined.

Lemma dict_set_keys (k v : string) (d : Str.dict) (k' : string) :
  In k' (map fst (Str.dict_set k v d)) -> k' = k \/ In k' (map fst d).
Proof.
  induction d as [|[a b] r IH]; simpl.
  - intros [<-|[]]. now left.
  - destruct (a =? k) eqn:E; simpl.
    + intros [<-|H]; auto.
    + intros [<-|H]; auto. destruct (IH H); auto.
Qed.

Lemma dict_set_values (k v : string) (d : Str.dict) (v' : string) :
  In v' (map snd (Str.dict_set k v d)) -> v' = v \/ In v' (map snd d).
Proof.
  induction d as [|[a b] r IH]; simpl.
  - intros [<-|[]]. now left.
  - destruct (a =? k) eqn:E; simpl.
    + intros [<-|H]; auto.
    + intros [<-|H]; auto. destruct (IH H); auto.
Qed.

Lemma dict_set_NoDup (k v : string) (d : Str.dict) :
  NoDup (map fst d) -> NoDup (map fst (Str.dict_set k v d)).
Proof.
  induction d as [|[a b] r IH]; simpl.
  - intros _. repeat constructor. simpl. tauto.
  - intros H. apply NoDup_cons_iff in H. destruct H as [Ha Hr].
    destruct (a =? k) eqn:E; simpl.
    + apply String.eqb_eq in E. subst. now constructor.
    + constructor; auto.
      intros Hin. apply dict_set_keys in Hin. destruct Hin as [->|Hin]; auto.
      now rewrite String.eqb_refl in E.
Qed.

Lemma parse_loop_sound (flags args title_parts : list string)
  (opts : Str.dict) :
  let out := InteractiveCLI.parse_loop flags args title_parts opts in
  (forall w, In w (fst out) ->
             In w title_parts \/ (In w args /\ ~ In w flags))
  /\ (forall k, In k (map fst (snd out)) ->
                In k (map fst opts) \/ In k flags)
  /\ (forall v, In v (map snd (snd out)) ->
                In v (map snd opts) \/ In v args)
  /\ (NoDup (map fst opts) -> NoDup (map fst (snd out))).
Proof.
  revert title_parts opts.
  induction args as [args IH] using (induction_ltof1 _ (@length _)).
  unfold ltof in IH.
  destruct args as [|token rest]; intros title_parts opts; simpl.
  { repeat split; auto. }
  destruct (existsb (String.eqb token) flags) eqn:F.
  - destruct rest as [|value rest'].
    + simpl. repeat split; auto.
    + destruct (IH rest' (ltac:(simpl; lia)) title_parts
                   (Str.dict_set token value opts)) as (H1 & H2 & H3 & H4).
      repeat split.
      * intros w Hw. destruct (H1 w Hw) as [|[? ?]]; auto.
        right. split; auto. simpl. auto.
      * intros k Hk. destruct (H2 k Hk) as [Hk'|]; auto.
        apply dict_set_keys in Hk'. destruct Hk' as [->|]; auto.
        right. now apply is_flag_iff.
      * intros v Hv. destruct (H3 v Hv) as [Hv'|]; simpl; auto.
        apply dict_set_values in Hv'. destruct Hv' as [->|]; auto.
      * intros Hnd. apply H4. now apply dict_set_NoDup.
  - destruct (IH rest (ltac:(simpl; lia)) (title_parts ++ [token]) opts)
      as (H1 & H2 & H3 & H4).
    repeat split; auto.
    + intros w Hw. destruct (H1 w Hw) as [Hw'|[? ?]].
      * apply in_app_or in Hw'. destruct Hw' as [|[<-|[]]]; auto.
        right. split; [now left|].
        intros Hin. apply is_flag_iff in Hin. congruence.
      * right. split; [now right|assumption].
    + intros v Hv. destruct (H3 v Hv); simpl; auto.
Qed.

(** X18. Whatever the command line, every key that
    [_parse_args_with_flags] puts in its dict is one of the flags, each
    key once, every value is a token of the line, and every word joined
    into the title is a token of the line that is not a flag. *)
Theorem parse_args_sound (args flags : list string) :
  let out := InteractiveCLI.parse_loop flags args [] [] in
  InteractiveCLI._parse_args_with_flags args flags
  = (Str.join " " (fst out), snd out)
  /\ (forall w, In w (fst out) -> In w args /\ ~ In w flags)
  /\ (forall k, In k (map fst (snd out)) -> In k flags)
  /\ NoDup (map fst (snd out))
  /\ (forall v, In v (map snd (snd out)) -> In v args).
Proof.
  intros out.
  destruct (parse_loop_sound flags args [] []) as (H1 & H2 & H3 & H4).
  fold out in H1, H2, H3, H4.
  split.
  { unfold InteractiveCLI._parse_args_with_flags. fold out.
    now destruct out. }
  split; [intros w Hw; destruct (H1 w Hw) as [[]|]; auto|].
  split; [intros k Hk; destruct (H2 k Hk) as [[]|]; auto|].
  split; [apply H4; constructor|].
  intros v Hv. destruct (H3 v Hv) as [[]|]; auto.
Qed.

(** ** AddTaskTool *)

(** X19. [AddTaskTool.handle] turns down a payload whose title is
    missing, empty or only whitespace, without reading or writing the
    file; on any other title it stores a pending, not notified task under
    the title with the whitespace at its ends removed, so that a title
    stored through the tool is never empty and never padded. *)
Theorem add_task_tool_validates (request : AddTaskTool.payload) (uuid : N)
  (now : string) (file : content) :
  (match AddTaskTool.p_title request with
   | Some ti => Str.strip ti = ""
   | None => True
   end ->
   AddTaskTool.handle request uuid now = Ret (failure AddTaskTool.no_title))
  /\ (forall ti,
        AddTaskTool.p_title request = Some ti -> Str.strip ti <> "" ->
        exists task,
          run (AddTaskTool.handle request uuid now) file
          = (success task, Json (TaskStorage.decode file ++ [task]))
          /\ title task = Str.strip ti
          /\ title task <> ""
          /\ Str.strip (title task) = title task
          /\ status task = "pending" /\ notified task = false
          /\ due_at task = AddTaskTool.p_due_at request
          /\ remind_at task = AddTaskTool.p_remind_at request).
Proof.
  unfold AddTaskTool.handle. split.
  - destruct (AddTaskTool.p_title request) as [ti|]; [|reflexivity].
    intros ->. now rewrite orb_true_r.
  - intros ti -> Hne.
    assert (E1 : (ti =? "") = false).
    { apply String.eqb_neq. intros ->. now apply Hne. }
    assert (E2 : (Str.strip ti =? "") = false) by now apply String.eqb_neq.
    rewrite E1, E2. cbn [orb].
    eexists. rewrite run_bind, run_add_task. cbn [fst snd run].
    split; [reflexivity|]. cbn [title status notified due_at remind_at].
    repeat split; auto. apply strip_idem.
Qed.

Lemma add_task_tool_validates_witness :
  AddTaskTool.handle (AddTaskTool.mkPayload (Some "   ") None None None)
                     a_uuid "2026-02-14T08:00:00+00:00"
  = Ret (failure AddTaskTool.no_title)
  /\ exists task,
       run (AddTaskTool.handle
              (AddTaskTool.mkPayload (Some " Buy milk ") None None None)
              a_uuid "2026-02-14T08:00:00+00:00") TaskStorage.fresh
       = (success task, Json (TaskStorage.decode TaskStorage.fresh ++ [task]))
       /\ title task = "Buy milk".
Proof.
  split.
  - apply (add_task_tool_validates
             (AddTaskTool.mkPayload (Some "   ") None None None) a_uuid
             "2026-02-14T08:00:00+00:00" TaskStorage.fresh).
    reflexivity.
  - destruct (add_task_tool_validates
                (AddTaskTool.mkPayload (Some " Buy milk ") None None None)
                a_uuid "2026-02-14T08:00:00+00:00" TaskStorage.fresh)
      as [_ H].
    destruct (H " Buy milk " eq_refl) as (task & E & Ht & _).
    + discriminate.
    + exists task. split; [exact E|exact Ht].
Defined.

(** ** CompleteTaskTool and DeleteTaskTool *)

(** X20. [CompleteTaskTool.handle] and [DeleteTaskTool.handle] turn down
    a missing or empty task id without reading the file.  Given an id or
    prefix, they answer the failure ["Task '...' not found."] and leave
    the file as it is when [get_task] finds nothing for it; otherwise the
    one succeeds with the task that [get_task] finds, now completed, the
    other with that task itself. *)
Theorem id_tools_answers (task_id : string) (file : content) :
  CompleteTaskTool.handle None = Ret (failure no_task_id)
  /\ CompleteTaskTool.handle (Some "") = Ret (failure no_task_id)
  /\ DeleteTaskTool.handle None = Ret (failure no_task_id)
  /\ DeleteTaskTool.handle (Some "") = Ret (failure no_task_id)
  /\ (task_id <> "" ->
      match fst (run (TaskStorage.get_task task_id) file) with
      | None =>
          run (CompleteTaskTool.handle (Some task_id)) file
          = (failure (not_found task_id), file)
          /\ run (DeleteTaskTool.handle (Some task_id)) file
             = (failure (not_found task_id), file)
      | Some t =>
          fst (run (CompleteTaskTool.handle (Some task_id)) file)
          = success (dict_update TaskStorage.completed_fields t)
          /\ fst (run (DeleteTaskTool.handle (Some task_id)) file)
             = success t
      end).
Proof.
  repeat split.
  intros Hne. apply String.eqb_neq in Hne.
  unfold CompleteTaskTool.handle, DeleteTaskTool.handle. rewrite Hne.
  rewrite !run_bind.
  unfold TaskStorage.complete_task.
  rewrite run_update_task, run_delete_task, get_task_as_find.
  destruct (TaskStorage._find (TaskStorage.decode file) task_id)
    as [i|] eqn:E.
  - destruct (_find_valid _ _ _ E) as (t & Ht). rewrite Ht.
    cbn [fst snd]. rewrite nth_error_mutate, Ht. split; reflexivity.
  - split; reflexivity.
Qed.

Lemma id_tools_answers_witness :
  run (CompleteTaskTool.handle (Some "nope")) (Json [task_a; task_b])
  = (failure (not_found "nope"), Json [task_a; task_b])
  /\ run (DeleteTaskTool.handle (Some "nope")) (Json [task_a; task_b])
     = (failure (not_found "nope"), Json [task_a; task_b]).
Proof.
  destruct (id_tools_answers "nope" (Json [task_a; task_b]))
    as (_ & _ & _ & _ & H).
  apply H. discriminate.
Defined.

(** ** Notifier *)




Lemma stdout_notify_each (calls : list (bool * Task))
  (self : Notifier.state) :
  filter Notifier.is_stdout (fst (Notifier.notify_each calls self))
  = map (fun c => Notifier.stdout_write (Notifier.terminal_message (snd c)))
        calls.
Proof.
  revert self; induction calls as [|[w t] r IH]; intros self;
    [reflexivity|].
  cbn [Notifier.notify_each].
  destruct (Notifier.notify w t self) as [events self'] eqn:E.
  specialize (IH self').
  destruct (Notifier.notify_each r self') as [events' self''].
  cbn [fst] in *. rewrite filter_app, IH. cbn [map snd]. 
  unfold Notifier.notify, Notifier.desktop_notify in E.
  destruct (Notifier._check_notify_send w self) as [[|] s];
    injection E as <- _; reflexivity.
Qed.

(** ** The reminder loop *)

Lemma run_check_reminders (now : string) (file : content) :
  run (CheckRemindersTool.handle now) file
  = (success (length (fst (run (TaskStorage.get_due_reminders now) file)),
              fst (run (TaskStorage.get_due_reminders now) file)),
     snd (run (TaskStorage.get_due_reminders now) file)).
Proof. unfold CheckRemindersTool.handle. now rewrite run_bind. Qed.

(** ** The add command *)

(** X23. The [add] command prints its usage line and leaves the store
    alone when the line has no title word; it prints the error of the tool
    and leaves the store alone when the title is only whitespace;
    otherwise it appends one pending, not notified task under the stripped
    title, whose due and reminder times are the normalised values of
    [--due] and [--remind], absent when the flag is missing or empty: a
    reminder time stored by the command is never empty and contains a
    ["T"]. *)
Theorem handle_add_stores (args : list string) (uuid : N) (now : string)
  (file : content) :
  let parsed :=
    InteractiveCLI._parse_args_with_flags args
      ["--desc"; "--due"; "--remind"] in
  (fst parsed = "" ->
   run (Commands._handle_add args uuid now) file = (Commands.usage_add, file)
   /\ writes (Commands._handle_add args uuid now) file = [])
  /\ (fst parsed <> "" -> Str.strip (fst parsed) = "" ->
      run (Commands._handle_add args uuid now) file
      = ((Commands._RED ++ "Error: " ++ AddTaskTool.no_title
          ++ Commands._RESET)%string, file)
      /\ writes (Commands._handle_add args uuid now) file = [])
  /\ (Str.strip (fst parsed) <> "" ->
      exists task,
        snd (run (Commands._handle_add args uuid now) file)
        = Json (TaskStorage.decode file ++ [task])
        /\ title task = Str.strip (fst parsed)
        /\ status task = "pending" /\ notified task = false
        /\ due_at task
           = option_map InteractiveCLI._normalize_datetime
                        (Commands.given "--due" (snd parsed))
        /\ remind_at task
           = option_map InteractiveCLI._normalize_datetime
                        (Commands.given "--remind" (snd parsed))
        /\ forall r, remind_at task = Some r ->
                     r <> "" /\ Str.contains "T" r = true).
Proof.
  intros parsed. unfold Commands._handle_add. fold parsed.
  destruct parsed as [words opts]. cbn [fst snd].
  split; [intros ->; split; reflexivity|].
  split.
  - intros Hne Hs. apply String.eqb_neq in Hne. rewrite Hne.
    unfold AddTaskTool.handle, Commands.add_payload.
    cbn [AddTaskTool.p_title]. rewrite Hne, Hs. cbn. split; reflexivity.
  - intros Hs.
    assert (Hne : (words =? "") = false).
    { apply String.eqb_neq. intros ->. now apply Hs. }
    rewrite Hne.
    unfold AddTaskTool.handle, Commands.add_payload.
    cbn [AddTaskTool.p_title AddTaskTool.p_description
         AddTaskTool.p_due_at AddTaskTool.p_remind_at].
    rewrite Hne. apply String.eqb_neq in Hs. rewrite Hs. cbn [orb].
    eexists. rewrite !run_bind, run_add_task. cbn [fst snd run].
    split; [reflexivity|].
    cbn [title status notified due_at remind_at].
    repeat split; auto.
    + intros ->.
      destruct (Commands.given "--remind" opts) as [v|]; [|discriminate].
      cbn [option_map] in H. injection H as H.
      destruct (normalize_datetime_idempotent v) as (K & _).
      rewrite H in K. discriminate.
    + destruct (Commands.given "--remind" opts) as [v|]; [|discriminate].
      cbn [option_map] in H. injection H as <-.
      apply normalize_datetime_idempotent.
Qed.

Lemma handle_add_stores_witness :
  exists task,
    snd (run (Commands._handle_add
                ["Buy"; "milk"; "--remind"; "2026-03-01 09:00"]
                a_uuid "2026-02-14T08:00:00+00:00") TaskStorage.fresh)
    = Json (TaskStorage.decode TaskStorage.fresh ++ [task])
    /\ title task = "Buy milk"
    /\ remind_at task = Some "2026-03-01T09:00:00".
Proof.
  destruct (handle_add_stores
              ["Buy"; "milk"; "--remind"; "2026-03-01 09:00"]
              a_uuid "2026-02-14T08:00:00+00:00" TaskStorage.fresh)
    as (_ & _ & H).
  destruct H as (task & E & Ht & _ & _ & _ & Hr & _).
  - discriminate.
  - exists task. repeat split; assumption.
Defined.

(** ** Reads do not write *)

(** X24. [get_task] and [list_tasks] never call [_save]: whatever the id
    or the filter, they write nothing and leave the file as it is, a file
    that does not parse included. *)
Theorem readers_never_write (file : content) (s f now : string) :
  writes (TaskStorage.get_task s) file = []
  /\ snd (run (TaskStorage.get_task s) file) = file
  /\ writes (TaskStorage.list_tasks f now) file = []
  /\ snd (run (TaskStorage.list_tasks f now) file) = file.
Proof.
  split; [|split; [now rewrite run_get_task|split;
                   [|apply run_list_tasks_file]]].
  - unfold TaskStorage.get_task. cbn [TaskStorage._load bind writes].
    destruct (find _ (TaskStorage.decode file)); [reflexivity|].
    destruct (4 <=? String.length s)%nat; [|reflexivity].
    destruct (filter _ (TaskStorage.decode file)) as [|t [|t' r]];
      reflexivity.
  - unfold TaskStorage.list_tasks. cbn [TaskStorage._load bind writes].
    repeat match goal with |- context [if ?b then _ else _] => destruct b end;
      reflexivity.
Qed.

Lemma overdue_within_pending_witness :
  In task_b (fst (run (TaskStorage.list_tasks "pending" "2026")
                      (Json [task_a; task_b; task_b_done]))).
Proof.
  apply (proj2 (overdue_within_pending (Json [task_a; task_b; task_b_done])
                  "2026-02-14T08:30:00+00:00" "2026")).
  simpl. tauto.
Defined.

Lemma parse_args_sound_witness :
  In "--desc" ["--desc"; "--due"; "--remind"].
Proof.
  destruct (parse_args_sound ["Buy"; "--desc"; "food"; "--due"]
              ["--desc"; "--due"; "--remind"]) as (_ & _ & H & _).
  apply H. simpl. tauto.
Defined.

(** ** complete_task, then any number of polls *)

(** What a poll returns was stored as a pending task before. *)
Lemma poll_from_pending (nows : list string) (file : content) (x : Task) :
  In x (concat (poll nows file)) ->
  exists t, In t (TaskStorage.decode file)
            /\ id t = id x /\ status t = "pending".
Proof.
  revert file; induction nows as [|now r IH]; intros file;
    cbn [poll concat]; [intros []|].
  intros H. apply in_app_or in H. destruct H as [H|H].
  - rewrite run_get_due_reminders in H. cbn [fst] in H.
    apply in_map_iff in H. destruct H as (t & <- & Ht).
    apply filter_In in Ht. destruct Ht as [Ht Hd].
    apply is_due_iff in Hd. destruct Hd as (Hs & _).
    exists t. repeat split; auto.
  - destruct (IH _ H) as (t & Ht & E & Hs).
    rewrite decode_after_due in Ht.
    apply in_map_iff in Ht. destruct Ht as (t0 & <- & Ht0).
    exists t0. rewrite id_mark_due in E. repeat split; auto.
    unfold mark_due in Hs. now destruct (TaskStorage.is_due now t0).
Qed.

(** C6. A task whose status is completed is in no list returned by
    [get_due_reminders], whatever its reminder time and notified flag.  In
    particular, in a store whose ids are distinct: when an id or prefix
    resolves to a stored task, [complete_task] returns that task with
    status completed and saves it so; the completed task then stays stored
    as it is through any number of later [get_due_reminders] calls, and
    none of those calls returns a task with its id, even if its reminder
    time is past and it was never notified. *)
Theorem completed_never_due :
  (forall (file : content) (now : string) (t : Task),
      status t = "completed" ->
      ~ In t (fst (run (TaskStorage.get_due_reminders now) file)))
  /\ (forall (file : content) (s : string) (x : Task),
        NoDup (map id (TaskStorage.decode file)) ->
        fst (run (TaskStorage.get_task s) file) = Some x ->
        fst (run (TaskStorage.complete_task s) file)
        = Some (dict_update TaskStorage.completed_fields x)
        /\ status (dict_update TaskStorage.completed_fields x) = "completed"
        /\ In (dict_update TaskStorage.completed_fields x)
              (TaskStorage.decode (after (call_complete s) file))
        /\ forall nows : list string,
             In (dict_update TaskStorage.completed_fields x)
                (TaskStorage.decode
                   (after_all (map call_due_reminders nows)
                              (after (call_complete s) file)))
             /\ forall due t',
                  In due (poll nows (after (call_complete s) file)) ->
                  In t' due -> id t' <> id x).
Proof.
  split.
  - intros file now t Hs Hin. apply due_are_pending in Hin. congruence.
  - intros file s x Hnd Hget.
    set (done := dict_update TaskStorage.completed_fields x).
    assert (Hret : fst (run (TaskStorage.complete_task s) file) = Some done).
    { unfold TaskStorage.complete_task.
      rewrite run_update_task. rewrite get_task_as_find in Hget.
      destruct (TaskStorage._find (TaskStorage.decode file) s) as [i|];
        [|discriminate].
      cbn [fst]. now rewrite nth_error_mutate, Hget. }
    destruct (run_complete_task s file done Hret) as [Hs Hin].
    assert (Hin' : In done (TaskStorage.decode (after (call_complete s) file))).
    { unfold after, perform. now rewrite run_bind. }
    assert (Hnd' : NoDup (map id (TaskStorage.decode
                                    (after (call_complete s) file)))).
    { apply NoDup_ids_after; [exact Hnd|exact I]. }
    split; [exact Hret|]. split; [exact Hs|]. split; [exact Hin'|].
    intros nows. split; [now apply after_polls_completed|].
    intros due t' Hdue Ht' E.
    assert (Hc : In t' (concat (poll nows (after (call_complete s) file)))).
    { apply in_concat. exists due. auto. }
    destruct (poll_from_pending _ _ _ Hc) as (t0 & Ht0 & E0 & Hp).
    assert (t0 = done).
    { apply (same_id_same_task _ _ _ Hnd' Ht0 Hin').
      rewrite E0, E. reflexivity. }
    subst t0. congruence.
Qed.

(** A reminder that is past and not notified, completed by a prefix of its
    id before any poll: no poll returns it. *)
Lemma completed_never_due_witness :
  fst (run (TaskStorage.complete_task "1234") (Json [reminder; task_a]))
  = Some done_reminder
  /\ forall due t',
       In due (poll ["2026-02-14T08:30:00+00:00"; "2026-02-14T08:31:00+00:00"]
                    (after (call_complete "1234") (Json [reminder; task_a]))) ->
       In t' due -> id t' <> "12345678".
Proof.
  destruct completed_never_due as [_ H].
  destruct (H (Json [reminder; task_a]) "1234" reminder) as (H1 & _ & _ & H2).
  - repeat constructor; simpl; intuition discriminate.
  - reflexivity.
  - split; [exact H1|].
    exact (proj2 (H2 ["2026-02-14T08:30:00+00:00";
                      "2026-02-14T08:31:00+00:00"])).
Defined.

(** ** Files whose bytes do not decode *)

(** No valid UTF-8 holds the byte [0xFF]. *)
Lemma utf8_decode_no_ff (bytes : list Byte.byte) (text : list N) :
  RawLoad.utf8_decode bytes = Some text -> ~ In Byte.xff bytes.
Proof.
  revert text.
  induction bytes as [bytes IH] using (induction_ltof1 _ (@length _)).
  unfold ltof in IH.
  destruct bytes as [|c0 rest0]; [intros _ _ []|].
  intros text. cbn [RawLoad.utf8_decode].
  assert (Hrest : forall r t,
            length r < length (c0 :: rest0) ->
            option_map t (RawLoad.utf8_decode r) = Some text ->
            ~ In Byte.xff r).
  { intros r t Hlen H.
    destruct (RawLoad.utf8_decode r) as [x|] eqn:E; [|discriminate].
    now apply (IH r Hlen x). }
  destruct (Byte.to_N c0 <? 128)%N eqn:L0.
  { intros H [->|Hin]; [discriminate|].
    revert Hin. apply (Hrest rest0 _ (Nat.lt_succ_diag_r _) H). }
  destruct ((194 <=? Byte.to_N c0) && (Byte.to_N c0 <=? 223))%N eqn:L1.
  { destruct rest0 as [|c1 rest1]; [discriminate|].
    destruct (RawLoad.continuation (Byte.to_N c1)) eqn:C1; [|discriminate].
    intros H [->|[->|Hin]]; try discriminate.
    revert Hin. apply (Hrest rest1 _ (ltac:(simpl; lia)) H). }
  destruct ((224 <=? Byte.to_N c0) && (Byte.to_N c0 <=? 239))%N eqn:L2.
  { destruct rest0 as [|c1 [|c2 rest2]]; try discriminate.
    destruct (RawLoad.continuation (Byte.to_N c1)) eqn:C1;
      [|discriminate].
    destruct (RawLoad.continuation (Byte.to_N c2)) eqn:C2;
      [|discriminate].
    cbn [andb].
    destruct (negb _ && negb _); [|discriminate].
    intros H [->|[->|[->|Hin]]]; try discriminate.
    revert Hin. apply (Hrest rest2 _ (ltac:(simpl; lia)) H). }
  destruct ((240 <=? Byte.to_N c0) && (Byte.to_N c0 <=? 244))%N eqn:L3;
    [|discriminate].
  destruct rest0 as [|c1 [|c2 [|c3 rest3]]]; try discriminate.
  destruct (RawLoad.continuation (Byte.to_N c1)) eqn:C1; [|discriminate].
  destruct (RawLoad.continuation (Byte.to_N c2)) eqn:C2; [|discriminate].
  destruct (RawLoad.continuation (Byte.to_N c3)) eqn:C3; [|discriminate].
  cbn [andb].
  destruct (negb _ && negb _); [|discriminate].
  intros H [->|[->|[->|[->|Hin]]]]; try discriminate.
  revert Hin. apply (Hrest rest3 _ (ltac:(simpl; lia)) H).
Qed.

(** On the files that [content] stands for, the byte-level [_load] returns
    what [TaskStorage.decode] gives. *)
Lemma load_on_content (json_loads : list N -> RawLoad.outcome (list Task))
  (bytes : list Byte.byte) (c : content) :
  RawLoad.content_of json_loads bytes = Some c ->
  RawLoad._load json_loads bytes = RawLoad.returned (TaskStorage.decode c).
Proof.
  unfold RawLoad.content_of, RawLoad._load.
  destruct (RawLoad.utf8_decode bytes) as [text|]; [|discriminate].
  destruct (json_loads text) as [data|[| |]]; try discriminate;
    now intros [= <-].
Qed.

(** C8 (what the code does). [_load] treats as an empty collection only
    the text on which [json.load] raises [JSONDecodeError].  A file that
    holds the byte [0xFF] (any text saved as UTF-16 starts with it) is no
    UTF-8: the read raises [UnicodeDecodeError], which the [except] clause
    does not catch, so [_load] raises it, whatever the parser would do;
    and a [RecursionError] of the parser leaves [_load] likewise. *)
Theorem load_raises_on_undecodable_bytes
  (json_loads : list N -> RawLoad.outcome (list Task))
  (bytes : list Byte.byte) :
  (In Byte.xff bytes ->
   RawLoad._load json_loads bytes
   = RawLoad.raised RawLoad.UnicodeDecodeError)
  /\ (forall text,
        RawLoad.utf8_decode bytes = Some text ->
        json_loads text = RawLoad.raised RawLoad.RecursionError ->
        RawLoad._load json_loads bytes
        = RawLoad.raised RawLoad.RecursionError)
  /\ (forall text,
        RawLoad.utf8_decode bytes = Some text ->
        json_loads text = RawLoad.raised RawLoad.JSONDecodeError ->
        RawLoad._load json_loads bytes = RawLoad.returned []).
Proof.
  unfold RawLoad._load. split; [|split].
  - intros Hin.
    destruct (RawLoad.utf8_decode bytes) as [text|] eqn:E; [|reflexivity].
    exfalso. exact (utf8_decode_no_ff bytes text E Hin).
  - intros text -> ->. reflexivity.
  - intros text -> ->. reflexivity.
Qed.

(** The text [[]] saved as UTF-16 with its byte order mark. *)
Lemma load_raises_on_undecodable_bytes_witness :
  RawLoad._load (fun _ => RawLoad.returned [])
                [Byte.xff; Byte.xfe; Byte.x5b; Byte.x00; Byte.x5d; Byte.x00]
  = RawLoad.raised RawLoad.UnicodeDecodeError.
Proof.
  apply (proj1 (load_raises_on_undecodable_bytes
                  (fun _ => RawLoad.returned [])
                  [Byte.xff; Byte.xfe; Byte.x5b; Byte.x00;
                   Byte.x5d; Byte.x00])).
  simpl. tauto.
Defined.

(** ** The reminder loop, pass by pass *)

Lemma check_app_name (which : bool) (self : Notifier.state) :
  Notifier.app_name (snd (Notifier._check_notify_send which self))
  = Notifier.app_name self.
Proof.
  unfold Notifier._check_notify_send.
  now destruct (Notifier._has_notify_send self).
Qed.

Lemma notify_one (which : bool) (task : Task) (self : Notifier.state) :
  filter Notifier.is_stdout (fst (Notifier.notify which task self))
  = [Notifier.stdout_write (Notifier.terminal_message task)]
  /\ Notifier.app_name (snd (Notifier.notify which task self))
     = Notifier.app_name self.
Proof.
  pose proof (check_app_name which self) as H.
  unfold Notifier.notify, Notifier.desktop_notify.
  destruct (Notifier._check_notify_send which self) as [[|] s];
    cbn [fst snd] in *; auto.
Qed.

(** One pass notifies a first part of the tasks it is given, all of them
    when no argument of [notify-send] can hold a NUL. *)
Lemma notify_all_cut (which : bool) (tasks : list Task)
  (self : Notifier.state) :
  Notifier.app_name (snd (Loop.notify_all which tasks self))
  = Notifier.app_name self
  /\ exists cut rest,
       tasks = cut ++ rest
       /\ filter Notifier.is_stdout (fst (Loop.notify_all which tasks self))
          = map (fun t => Notifier.stdout_write (Notifier.terminal_message t))
                cut
       /\ (Loop.has_nul (Notifier.app_name self) = false ->
           (forall t, In t tasks ->
                      Loop.has_nul (Notifier.desktop_body t) = false) ->
           rest = []).
Proof.
  revert self; induction tasks as [|task later IH]; intros self.
  - split; [reflexivity|]. exists [], []. repeat split.
  - cbn [Loop.notify_all].
    destruct (Loop.notify_raises which task self) eqn:R.
    + cbn [fst snd]. split; [apply check_app_name|].
      exists [task], later. repeat split.
      intros Hname Hbody. unfold Loop.notify_raises in R.
      rewrite Hname, (Hbody task) in R by now left.
      now rewrite andb_false_r in R.
    + destruct (notify_one which task self) as [N1 N2].
      destruct (Notifier.notify which task self) as [events self'].
      cbn [fst snd] in N1, N2.
      destruct (IH self') as (A & cut & rest & E & S & Hrest).
      destruct (Loop.notify_all which later self') as [events' self''].
      cbn [fst snd] in *.
      split; [congruence|].
      exists (task :: cut), rest. repeat split.
      * now rewrite E.
      * now rewrite filter_app, N1, S.
      * intros Hname Hbody. apply Hrest; [congruence|].
        intros t Ht. apply Hbody. now right.
Qed.

Lemma body_mark_notified (t : Task) :
  Notifier.desktop_body (mark_notified t) = Notifier.desktop_body t.
Proof. reflexivity. Qed.

Lemma body_mark_due (now : string) (t : Task) :
  Notifier.desktop_body (mark_due now t) = Notifier.desktop_body t.
Proof. unfold mark_due. now destruct (TaskStorage.is_due now t). Qed.

Lemma tick_cut (now : string) (which : bool) (file : content)
  (notifier : Notifier.state) :
  snd (fst (Loop.tick now which file notifier))
  = snd (run (TaskStorage.get_due_reminders now) file)
  /\ Notifier.app_name (snd (Loop.tick now which file notifier))
     = Notifier.app_name notifier
  /\ exists cut rest,
       fst (run (TaskStorage.get_due_reminders now) file) = cut ++ rest
       /\ filter Notifier.is_stdout
                 (fst (fst (Loop.tick now which file notifier)))
          = map (fun t => Notifier.stdout_write (Notifier.terminal_message t))
                cut
       /\ (Loop.has_nul (Notifier.app_name notifier) = false ->
           (forall t, In t (TaskStorage.decode file) ->
                      Loop.has_nul (Notifier.desktop_body t) = false) ->
           rest = []).
Proof.
  unfold Loop.tick. rewrite run_check_reminders.
  assert (Hbody : (forall t, In t (TaskStorage.decode file) ->
                     Loop.has_nul (Notifier.desktop_body t) = false) ->
                  forall t,
                    In t (fst (run (TaskStorage.get_due_reminders now) file)) ->
                    Loop.has_nul (Notifier.desktop_body t) = false).
  { intros H t Ht. rewrite run_get_due_reminders in Ht. cbn [fst] in Ht.
    apply in_map_iff in Ht. destruct Ht as (x & <- & Hx).
    apply filter_In in Hx. rewrite body_mark_notified. now apply H. }
  destruct (fst (run (TaskStorage.get_due_reminders now) file))
    as [|t r] eqn:E.
  - cbn [length Nat.ltb Nat.leb fst snd].
    repeat split. exists [], []. repeat split.
  - cbn [length Nat.ltb Nat.leb].
    destruct (notify_all_cut which (t :: r) notifier)
      as (A & cut & rest & E' & S & Hrest).
    destruct (Loop.notify_all which (t :: r) notifier)
      as [events notifier'].
    cbn [fst snd] in *. repeat split; auto.
    exists cut, rest. repeat split; auto.
Qed.

(** X22. The reminder loop leaves the file as its polls leave it.  It
    writes a reminder to stdout only for tasks that its polls return: in
    each pass for a first part of the tasks returned, in their order, a
    [notify] that raises ending the pass.  When no argument of
    [notify-send] can hold a NUL character (neither the name of the
    notifier nor the title, due time or description of a stored task), it
    writes exactly one message for every task returned. *)
Theorem reminder_loop_announces_polled (ticks : list (string * bool))
  (file : content) (notifier : Notifier.state) :
  snd (fst (Loop._reminder_loop ticks file notifier))
  = after_all (map call_due_reminders (map fst ticks)) file
  /\ (exists cuts,
        filter Notifier.is_stdout
               (fst (fst (Loop._reminder_loop ticks file notifier)))
        = map (fun t => Notifier.stdout_write (Notifier.terminal_message t))
              (concat cuts)
        /\ Forall2 (fun cut polled => exists rest, polled = cut ++ rest)
                   cuts (poll (map fst ticks) file))
  /\ (Loop.has_nul (Notifier.app_name notifier) = false ->
      (forall t, In t (TaskStorage.decode file) ->
                 Loop.has_nul (Notifier.desktop_body t) = false) ->
      filter Notifier.is_stdout
             (fst (fst (Loop._reminder_loop ticks file notifier)))
      = map (fun t => Notifier.stdout_write (Notifier.terminal_message t))
            (concat (poll (map fst ticks) file))).
Proof.
  unfold after_all.
  revert file notifier; induction ticks as [|[now which] later IH];
    intros file notifier.
  { split; [reflexivity|]. split; [|reflexivity].
    exists []. split; [reflexivity|constructor]. }
  cbn [Loop._reminder_loop map fst poll concat fold_left].
  destruct (tick_cut now which file notifier)
    as (T1 & T2 & cut & rest & E & S & Hrest).
  destruct (Loop.tick now which file notifier) as [[events file'] notifier'].
  cbn [fst snd] in T1, T2, S. subst file'.
  destruct (IH (snd (run (TaskStorage.get_due_reminders now) file))
               notifier') as (I1 & (cuts & I2 & I3) & I4).
  destruct (Loop._reminder_loop later _ notifier')
    as [[events' file''] notifier''].
  cbn [fst snd] in *.
  split; [|split].
  - rewrite I1. f_equal. unfold after, perform. now rewrite run_bind.
  - exists (cut :: cuts). split.
    + cbn [concat]. now rewrite filter_app, S, I2, map_app.
    + constructor; [now exists rest|exact I3].
  - intros Hname Hbody.
    rewrite filter_app, S, I4, map_app.
    + rewrite E, (Hrest Hname Hbody), app_nil_r. reflexivity.
    + congruence.
    + intros t Ht. rewrite decode_after_due in Ht.
      apply in_map_iff in Ht. destruct Ht as (x & <- & Hx).
      rewrite body_mark_due. now apply Hbody.
Qed.

Lemma reminder_loop_announces_polled_witness :
  filter Notifier.is_stdout
         (fst (fst (Loop._reminder_loop
                      [("2019-12-31T23:59:00+00:00", true);
                       ("2026-02-14T08:30:00+00:00", true)]
                      (Json [reminder; task_a]) (Notifier.new None))))
  = [Notifier.stdout_write (Notifier.terminal_message past_reminder)].
Proof.
  destruct (reminder_loop_announces_polled
              [("2019-12-31T23:59:00+00:00", true);
               ("2026-02-14T08:30:00+00:00", true)]
              (Json [reminder; task_a]) (Notifier.new None))
    as (_ & _ & H).
  apply H.
  - reflexivity.
  - intros t [<-|[<-|[]]]; reflexivity.
Defined.

(** A NUL in the title of the first of two due tasks: with [notify-send]
    installed the pass ends after the first terminal message, and both
    tasks are saved as notified. *)
Example nul_title_ends_the_pass :
  Loop._reminder_loop [("2026-02-14T08:30:00+00:00", true)]
    (Json [Loop.nul_reminder; reminder]) (Notifier.new None)
  = ([Notifier.stdout_write (Notifier.terminal_message Loop.nul_reminder)],
     Json [mark_notified Loop.nul_reminder; past_reminder],
     Notifier.mkNotifier "DailyTaskReminder" (Some true)).
Proof. reflexivity. Qed.
